(** * fs/crypto: encryption policies and the no-key filename codec

    A shallow embedding of [fs/crypto/policy.c] (policy management followed
    by the filename codec) and the properties its specification states.

    Conventions.
    - [u8] buffers and [char] buffers are [list byte]; a C string literal is
      the byte list of a Rocq string.
    - C integers are [Z].  [u32] arithmetic that can leave its range is
      wrapped with [wrap32]; the [int] accumulators of the base64 loops never
      hold more than 14 bits, so no wrap is written there.
    - A C function that returns a status and fills an out-parameter returns
      a pair (status, out-value); inode updates are threaded explicitly. *)

From Stdlib Require Import ZArith List Bool Lia.
From Stdlib.Strings Require Import Byte String.
Import ListNotations.
Local Open Scope Z_scope.

(** ** Bytes as machine integers *)

Definition u8 (b : byte) : Z := Z.of_N (Byte.to_N b).

Definition to_u8 (z : Z) : byte :=
  match Byte.of_N (Z.to_N (z mod 256)) with
  | Some b => b
  | None => x00
  end.

Definition cstr (s : string) : list byte := list_byte_of_string s.

Definition len {A : Type} (l : list A) : Z := Z.of_nat (List.length l).

(** ** errno values

    Modelled from the spec: the errno headers (uapi/asm-generic/errno-base.h
    and errno.h) are not part of the source file.  The specification names
    the errors ("no key", "not found", "already exists", ...); the numbers
    are those of the Linux ABI.  The properties use that they differ from
    each other and from 0. *)

Definition ENOENT : Z := 2.
Definition ENOMEM : Z := 12.
Definition EACCES : Z := 13.
Definition EFAULT : Z := 14.
Definition EEXIST : Z := 17.
Definition ENOTDIR : Z := 20.
Definition EINVAL : Z := 22.
Definition ERANGE : Z := 34.
Definition ENAMETOOLONG : Z := 36.
Definition ENOTEMPTY : Z := 39.
Definition ENODATA : Z := 61.
Definition ENOBUFS : Z := 105.
Definition EUCLEAN : Z := 117.
Definition ENOKEY : Z := 126.

(** ** The base64 variant of the filename codec *)

Definition lookup_table : list byte :=
  cstr "ABCDEFGHIJKLMNOPQRSTUVWXYZabcdefghijklmnopqrstuvwxyz0123456789+,".

(** [lookup_table[i]] *)
Definition lookup (i : Z) : byte := nth (Z.to_nat i) lookup_table x00.

(** [#define BASE64_CHARS(nbytes) DIV_ROUND_UP((nbytes) * 4, 3)] *)
Definition DIV_ROUND_UP (n d : Z) : Z := (n + d - 1) / d.
Definition BASE64_CHARS (nbytes : Z) : Z := DIV_ROUND_UP (nbytes * 4) 3.

(** The inner [do { *cp++ = lookup_table[ac & 0x3f]; ac >>= 6; bits -= 6; }
    while (bits >= 6);] of [base64_encode].  It returns the characters it
    stored and the final [ac] and [bits].  [bits] drops by 6 per round, so
    with [Z.to_nat bits] rounds of fuel the loop ends by its own test
    ([sextets_exit]). *)
Fixpoint sextets (fuel : nat) (ac bits : Z) : list byte * Z * Z :=
  let c := lookup (Z.land ac 63) in
  let ac' := Z.shiftr ac 6 in
  let bits' := bits - 6 in
  match fuel with
  | O => ([c], ac', bits')
  | S fuel' =>
      if 6 <=? bits'
      then let '(cs, a, b) := sextets fuel' ac' bits' in (c :: cs, a, b)
      else ([c], ac', bits')
  end.

(** The [for] loop of [base64_encode] from state [(bits, ac)], followed by
    the final [if (bits) *cp++ = lookup_table[ac & 0x3f];]. *)
Fixpoint encode_loop (src : list byte) (bits ac : Z) : list byte :=
  match src with
  | [] => if bits =? 0 then [] else [lookup (Z.land ac 63)]
  | x :: rest =>
      let ac1 := ac + Z.shiftl (u8 x) bits in
      let bits1 := bits + 8 in
      let '(cs, ac2, bits2) := sextets (Z.to_nat bits1) ac1 bits1 in
      cs ++ encode_loop rest bits2 ac2
  end.

(** [base64_encode(src, len, dst)]: the characters stored in [dst]; the C
    return value [cp - dst] is their number. *)
Definition base64_encode (src : list byte) : list byte := encode_loop src 0 0.

(** [strchr(s, c)] as the offset of the first occurrence of [c] in the C
    string [s], counted from [i]; the terminating NUL is part of the string,
    so [strchr(s, 0)] finds it. *)
Fixpoint strchr (s : list byte) (c : byte) (i : Z) : option Z :=
  match s with
  | [] => if Byte.eqb c x00 then Some i else None
  | x :: s' => if Byte.eqb x c then Some i else strchr s' c (i + 1)
  end.

(** The loop of [base64_decode] from state [(bits, ac)] with [out] already
    stored in [dst]; returns the C return value and the contents of [dst]. *)
Fixpoint decode_loop (src : list byte) (bits ac : Z) (out : list byte)
  : Z * list byte :=
  match src with
  | [] => if ac =? 0 then (len out, out) else (-1, out)
  | c :: rest =>
      match strchr lookup_table c 0 with
      | None => (-2, out)
      | Some p =>
          if Byte.eqb c x00 then (-2, out)
          else
            let ac1 := ac + Z.shiftl p bits in
            let bits1 := bits + 6 in
            if 8 <=? bits1
            then decode_loop rest (bits1 - 8) (Z.shiftr ac1 8)
                             (out ++ [to_u8 (Z.land ac1 255)])
            else decode_loop rest bits1 ac1 out
      end
  end.

Definition base64_decode (src : list byte) : Z * list byte :=
  decode_loop src 0 0 [].

(** *** The encoding as a bit stream

    Two readings of "six bits per character".  The input is a stream of
    bits, byte after byte; character [j] is the table entry of the six
    stream bits from position [6 * j] on, bits past the end being zero.
    In [encode_lsb_first] a byte is streamed from its least significant bit
    and the first bit of a group is the least significant bit of the table
    index.  In [encode_msb_first], which is what the specification words
    say (and what RFC 4648 does), a byte is streamed from its most
    significant bit and the first bit of a group is the most significant
    bit of the index. *)

Definition stream_bit_lsb (b : list byte) (t : Z) : bool :=
  Z.testbit (u8 (nth (Z.to_nat (t / 8)) b x00)) (t mod 8).

Definition stream_bit_msb (b : list byte) (t : Z) : bool :=
  Z.testbit (u8 (nth (Z.to_nat (t / 8)) b x00)) (7 - t mod 8).

Definition group_lsb (b : list byte) (j : Z) : Z :=
  Z.b2z (stream_bit_lsb b (6 * j))
  + 2 * Z.b2z (stream_bit_lsb b (6 * j + 1))
  + 4 * Z.b2z (stream_bit_lsb b (6 * j + 2))
  + 8 * Z.b2z (stream_bit_lsb b (6 * j + 3))
  + 16 * Z.b2z (stream_bit_lsb b (6 * j + 4))
  + 32 * Z.b2z (stream_bit_lsb b (6 * j + 5)).

Definition group_msb (b : list byte) (j : Z) : Z :=
  32 * Z.b2z (stream_bit_msb b (6 * j))
  + 16 * Z.b2z (stream_bit_msb b (6 * j + 1))
  + 8 * Z.b2z (stream_bit_msb b (6 * j + 2))
  + 4 * Z.b2z (stream_bit_msb b (6 * j + 3))
  + 2 * Z.b2z (stream_bit_msb b (6 * j + 4))
  + Z.b2z (stream_bit_msb b (6 * j + 5)).

(** Number of groups of six bits, the last one possibly partial, in [n]
    bytes. *)
Definition groups_of (n : Z) : nat := Z.to_nat ((8 * n + 5) / 6).

Definition encode_lsb_first (b : list byte) : list byte :=
  map (fun j => lookup (group_lsb b (Z.of_nat j))) (seq 0 (groups_of (len b))).

Definition encode_msb_first (b : list byte) : list byte :=
  map (fun j => lookup (group_msb b (Z.of_nat j))) (seq 0 (groups_of (len b))).

(** The input as one little-endian number, and its base-64 digits from
    the least significant one (used to relate the loop to the bit view). *)
Fixpoint le_value (b : list byte) : Z :=
  match b with
  | [] => 0
  | x :: rest => u8 x + 256 * le_value rest
  end.

Fixpoint digits64 (k : nat) (v : Z) : list Z :=
  match k with
  | O => []
  | S k' => v mod 64 :: digits64 k' (v / 64)
  end.

(** ** Results of fallible calls

    A C function that returns [0] and fills an out-parameter, or returns a
    non-zero error and leaves the out-parameter unread by every caller. *)

Inductive result (A : Type) : Type :=
| Ok (a : A)
| Err (errno : Z).
Arguments Ok {A} a.
Arguments Err {A} errno.

(** ** Constants and helpers of headers that are not part of this file

    Modelled from the spec: [fscrypt_private.h], [uapi/linux/fscrypt.h],
    [linux/stat.h] and [linux/kernel.h] are included by the source and are
    not part of it.  The specification gives a single policy version, a
    padding selector in the low flag bits choosing among 4, 8, 16 and 32
    bytes (a two-bit mask), a "direct key" flag, a fixed-size key
    descriptor and a per-inode nonce; the numeric values are those of the
    Linux headers. *)

Definition FSCRYPT_POLICY_V1 : Z := 0.
Definition FSCRYPT_POLICY_FLAGS_PAD_MASK : Z := 3.
Definition FS_POLICY_FLAGS_PAD_MASK : Z := FSCRYPT_POLICY_FLAGS_PAD_MASK.
Definition FSCRYPT_POLICY_FLAG_DIRECT_KEY : Z := 4.
Definition FSCRYPT_KEY_DESCRIPTOR_SIZE : nat := 8.
Definition FS_KEY_DERIVATION_NONCE_SIZE : nat := 16.
Definition FS_CRYPTO_BLOCK_SIZE : Z := 16.

(** Octal 0170000, 0120000, 0100000 and 0040000. *)
Definition S_IFMT : Z := 0xF000.
Definition S_IFLNK : Z := 0xA000.
Definition S_IFREG : Z := 0x8000.
Definition S_IFDIR : Z := 0x4000.
Definition S_ISLNK (m : Z) : bool := Z.land m S_IFMT =? S_IFLNK.
Definition S_ISREG (m : Z) : bool := Z.land m S_IFMT =? S_IFREG.
Definition S_ISDIR (m : Z) : bool := Z.land m S_IFMT =? S_IFDIR.

Definition wrap32 (z : Z) : Z := z mod 2 ^ 32.

(** Modelled from the spec: [round_up(x, y)] of linux/kernel.h, "rounded up
    to the nearest multiple" of a power of two; for a [u32] [x] the macro is
    [((x - 1) | (typeof(x))(y - 1)) + 1], in 32-bit unsigned arithmetic. *)
Definition round_up (x y : Z) : Z :=
  wrap32 (Z.lor (wrap32 (x - 1)) (wrap32 (y - 1)) + 1).

(** [memcpy(dst, src, n)] on buffers. *)
Definition memcpy (dst src : list byte) (n : nat) : list byte :=
  firstn n src ++ skipn n dst.

(** A [u32] as it lies in memory (the msm8953 is little-endian). *)
Definition u32_bytes (v : Z) : list byte :=
  [to_u8 v; to_u8 (Z.shiftr v 8); to_u8 (Z.shiftr v 16); to_u8 (Z.shiftr v 24)].

Definition u32_of_bytes (b : list byte) : Z :=
  u8 (nth 0 b x00) + Z.shiftl (u8 (nth 1 b x00)) 8
  + Z.shiftl (u8 (nth 2 b x00)) 16 + Z.shiftl (u8 (nth 3 b x00)) 24.

(** ** Data model *)

(** [union fscrypt_policy], of which this file only knows the [v1] member:
    one byte each for the version, the two modes and the flags, then the
    key descriptor. *)
Record fscrypt_policy : Type := mk_policy {
  version : byte;
  contents_encryption_mode : byte;
  filenames_encryption_mode : byte;
  flags : byte;
  master_key_descriptor : list byte
}.

(** The array field has its declared size. *)
Definition policy_wf (p : fscrypt_policy) : Prop :=
  List.length (master_key_descriptor p) = FSCRYPT_KEY_DESCRIPTOR_SIZE.

(** The bytes of a policy in memory, as [memcmp] and [copy_from_user]
    see them. *)
Definition policy_bytes (p : fscrypt_policy) : list byte :=
  version p :: contents_encryption_mode p :: filenames_encryption_mode p
  :: flags p :: master_key_descriptor p.

Definition policy_of_bytes (b : list byte) : fscrypt_policy :=
  {| version := nth 0 b x00;
     contents_encryption_mode := nth 1 b x00;
     filenames_encryption_mode := nth 2 b x00;
     flags := nth 3 b x00;
     master_key_descriptor := firstn FSCRYPT_KEY_DESCRIPTOR_SIZE (skipn 4 b) |}.

(** [memset(policy_u, 0, sizeof( *policy_u))] *)
Definition zero_policy : fscrypt_policy :=
  {| version := x00;
     contents_encryption_mode := x00;
     filenames_encryption_mode := x00;
     flags := x00;
     master_key_descriptor := repeat x00 FSCRYPT_KEY_DESCRIPTOR_SIZE |}.

(** [union fscrypt_context], [v1] member: the policy fields and a nonce. *)
Record fscrypt_context : Type := mk_context {
  ctx_version : byte;
  ctx_contents_encryption_mode : byte;
  ctx_filenames_encryption_mode : byte;
  ctx_flags : byte;
  ctx_master_key_descriptor : list byte;
  ctx_nonce : list byte
}.

Definition zero_context : fscrypt_context :=
  {| ctx_version := x00;
     ctx_contents_encryption_mode := x00;
     ctx_filenames_encryption_mode := x00;
     ctx_flags := x00;
     ctx_master_key_descriptor := repeat x00 FSCRYPT_KEY_DESCRIPTOR_SIZE;
     ctx_nonce := repeat x00 FS_KEY_DERIVATION_NONCE_SIZE |}.

(** [sizeof(struct fscrypt_context_v1)] *)
Definition sizeof_context_v1 : Z :=
  4 + Z.of_nat FSCRYPT_KEY_DESCRIPTOR_SIZE + Z.of_nat FS_KEY_DERIVATION_NONCE_SIZE.

(** [struct fscrypt_info], the fields this file reads. *)
Record fscrypt_info : Type := mk_info {
  ci_policy : fscrypt_policy;
  ci_flags : byte
}.

(** [struct inode], the attributes this file reads.  [IS_ENCRYPTED],
    [IS_CASEFOLDED] and [IS_DEADDIR] test bits of [i_flags] (linux/fs.h)
    and are kept as booleans.  [i_crypt_info] is NULL ([None]) until the key
    is found; [fscrypt_has_encryption_key(inode)] of linux/fscrypt.h is the
    test [inode->i_crypt_info != NULL], written below as a match that also
    hands the info to the callee. *)
Record inode : Type := mk_inode {
  i_mode : Z;
  IS_ENCRYPTED : bool;
  IS_CASEFOLDED : bool;
  IS_DEADDIR : bool;
  i_crypt_info : option fscrypt_info
}.

(** [struct file], with the outcome of the VFS checks made on it. *)
Record file : Type := mk_file {
  f_inode : inode;
  inode_owner_or_capable : bool;
  mnt_want_write_file : Z
}.

(** [inode->i_sb->s_cop]: the operations of the filesystem. *)
Record fscrypt_operations : Type := mk_ops {
  get_context : inode -> Z * fscrypt_context;
  set_context : inode -> fscrypt_context -> Z -> Z * inode;
  empty_dir : inode -> bool;
  max_namelen : Z
}.

(** [struct fscrypt_str]: a buffer pointer (NULL is [None]; otherwise the
    bytes it points to) and a length. *)
Record fscrypt_str : Type := mk_str {
  name : option (list byte);
  str_len : Z
}.

Definition null_str : fscrypt_str := {| name := None; str_len := 0 |}.

(** [struct fscrypt_name] *)
Record fscrypt_name : Type := mk_name {
  usr_fname : list byte;
  disk_name : fscrypt_str;
  hash : Z;
  minor_hash : Z;
  crypto_buf : fscrypt_str;
  is_ciphertext_name : bool
}.

(** [struct fscrypt_nokey_name]: [u32 dirhash[2]; u8 bytes[149];
    u8 sha256[32];].  [nk_bytes] holds the part of [bytes] that was
    written and [nk_sha256] is empty until the digest is stored: the
    structure lives on the stack and what was not written is never read. *)
Record fscrypt_nokey_name : Type := mk_nokey {
  dirhash0 : Z;
  dirhash1 : Z;
  nk_bytes : list byte;
  nk_sha256 : list byte
}.

Definition sizeof_nokey_bytes : Z := 149.
Definition sizeof_nokey_sha256 : Z := 32.
(** [offsetof(struct fscrypt_nokey_name, bytes[n])] *)
Definition offsetof_bytes (n : Z) : Z := 8 + n.
(** [offsetof(struct fscrypt_nokey_name, sha256)] *)
Definition offsetof_sha256 : Z := offsetof_bytes sizeof_nokey_bytes.
(** [offsetofend(struct fscrypt_nokey_name, sha256)] *)
Definition FSCRYPT_NOKEY_NAME_MAX : Z := offsetof_sha256 + sizeof_nokey_sha256.

(** The first [size] bytes of [(const u8 * )&nokey_name]. *)
Definition nokey_name_bytes (n : fscrypt_nokey_name) (size : Z) : list byte :=
  firstn (Z.to_nat size)
         (u32_bytes (dirhash0 n) ++ u32_bytes (dirhash1 n)
          ++ nk_bytes n ++ nk_sha256 n).

(** Modelled from the spec: [fscrypt_policy_size()] of fscrypt_private.h,
    "size determined by version": the size of the member the version byte
    selects, and [0] for an unknown version (which [fscrypt_ioctl_set_policy]
    tests with [size <= 0]). *)
Definition sizeof_policy_v1 : Z := 4 + Z.of_nat FSCRYPT_KEY_DESCRIPTOR_SIZE.

Definition fscrypt_policy_size_v (v : byte) : Z :=
  if u8 v =? FSCRYPT_POLICY_V1 then sizeof_policy_v1 else 0.

Definition fscrypt_policy_size (p : fscrypt_policy) : Z :=
  fscrypt_policy_size_v (version p).

(** [memcmp(a, b, n) == 0] *)
Definition memcmp_eq (a b : list byte) (n : Z) : bool :=
  if list_eq_dec Byte.byte_eq_dec (firstn (Z.to_nat n) a) (firstn (Z.to_nat n) b)
  then true else false.

Definition byte_dot : byte := "."%byte.

(** ** Sample data for the worked examples *)

(** The mode pairs the kernel accepts: AES-256-XTS with AES-256-CTS (1, 4),
    AES-128-CBC with AES-128-CTS (5, 6), Adiantum with Adiantum (9, 9). *)
Definition sample_valid_enc_modes (contents filenames : Z) : bool :=
  ((contents =? 1) && (filenames =? 4))
  || ((contents =? 5) && (filenames =? 6))
  || ((contents =? 9) && (filenames =? 9)).

Definition sample_policy : fscrypt_policy :=
  {| version := x00;
     contents_encryption_mode := x01;
     filenames_encryption_mode := x04;
     flags := x02;
     master_key_descriptor := cstr "12345678" |}.

Definition other_policy : fscrypt_policy :=
  {| version := x00;
     contents_encryption_mode := x01;
     filenames_encryption_mode := x04;
     flags := x02;
     master_key_descriptor := cstr "ABCDEFGH" |}.

Definition sample_context (p : fscrypt_policy) : fscrypt_context :=
  {| ctx_version := x01;
     ctx_contents_encryption_mode := contents_encryption_mode p;
     ctx_filenames_encryption_mode := filenames_encryption_mode p;
     ctx_flags := flags p;
     ctx_master_key_descriptor := master_key_descriptor p;
     ctx_nonce := repeat x2a FS_KEY_DERIVATION_NONCE_SIZE |}.

(** A filesystem whose encrypted inodes all store the context of
    [sample_policy]. *)
Definition sample_ops : fscrypt_operations :=
  {| get_context := fun _ => (sizeof_context_v1, sample_context sample_policy);
     set_context := fun i _ _ => (0, i);
     empty_dir := fun _ => true;
     max_namelen := 255 |}.

(** An encrypted directory, its key not loaded, and the same directory with
    the key loaded. *)
Definition sample_dir : inode :=
  {| i_mode := Z.lor S_IFDIR 0x1ED;
     IS_ENCRYPTED := true;
     IS_CASEFOLDED := false;
     IS_DEADDIR := false;
     i_crypt_info := None |}.

(** Resolved info with padding selector 0 (4 bytes) and 3 (32 bytes). *)
Definition sample_info : fscrypt_info :=
  {| ci_policy := sample_policy; ci_flags := x00 |}.

Definition sample_info_pad32 : fscrypt_info :=
  {| ci_policy := sample_policy; ci_flags := x03 |}.

Definition sample_dir_with_key : inode :=
  {| i_mode := Z.lor S_IFDIR 0x1ED;
     IS_ENCRYPTED := true;
     IS_CASEFOLDED := false;
     IS_DEADDIR := false;
     i_crypt_info := Some sample_info |}.

(** A regular file of the same filesystem whose cached policy is [p]. *)
Definition sample_child (p : fscrypt_policy) : inode :=
  {| i_mode := Z.lor S_IFREG 0x1A4;
     IS_ENCRYPTED := true;
     IS_CASEFOLDED := false;
     IS_DEADDIR := false;
     i_crypt_info := Some {| ci_policy := p; ci_flags := flags p |} |}.

Definition sample_file : file :=
  {| f_inode := sample_dir;
     inode_owner_or_capable := true;
     mnt_want_write_file := 0 |}.

(** Collaborators: no key is ever found, allocations succeed, the random
    source and the digest return fixed bytes, the cipher is the identity. *)
Definition no_key_info (i : inode) : Z * inode := (0, i).
Definition sample_random (n : nat) : list byte := repeat x2a n.
Definition sample_kmalloc (size : Z) : bool := true.
Definition sample_cipher (ci : fscrypt_info) (buf : list byte)
  : Z * list byte := (0, buf).
Definition sample_digest (data : list byte) : Z * list byte :=
  (0, repeat xd5 32).

(** A digest that depends on every byte of its data: 32 copies of the sum
    of the bytes modulo 256. *)
Definition sum_digest (data : list byte) : Z * list byte :=
  (0, repeat (to_u8 (fold_left (fun a b => (a + u8 b) mod 256) data 0)) 32).

(** A 16-byte and a 200-byte ciphertext name. *)
Definition name16 : list byte := cstr "0123456789abcdef".
Definition name200 : list byte :=
  map (fun k => to_u8 (Z.of_nat k)) (seq 0 200).

(** More sample data: a plain empty directory and a plain new file, the
    inode a filesystem returns once it has stored a context, a filesystem
    that stores contexts, and one whose stored context is unreadable. *)
Definition plain_dir : inode :=
  {| i_mode := Z.lor S_IFDIR 0x1ED;
     IS_ENCRYPTED := false;
     IS_CASEFOLDED := false;
     IS_DEADDIR := false;
     i_crypt_info := None |}.

Definition plain_child : inode :=
  {| i_mode := Z.lor S_IFREG 0x1A4;
     IS_ENCRYPTED := false;
     IS_CASEFOLDED := false;
     IS_DEADDIR := false;
     i_crypt_info := None |}.

Definition encrypted_of (i : inode) : inode :=
  {| i_mode := i_mode i;
     IS_ENCRYPTED := true;
     IS_CASEFOLDED := IS_CASEFOLDED i;
     IS_DEADDIR := IS_DEADDIR i;
     i_crypt_info := i_crypt_info i |}.

Definition storing_set_context (i : inode) (ctx : fscrypt_context) (size : Z)
  : Z * inode := (0, encrypted_of i).

Definition storing_ops : fscrypt_operations :=
  {| get_context := fun _ => (sizeof_context_v1, sample_context sample_policy);
     set_context := storing_set_context;
     empty_dir := fun _ => true;
     max_namelen := 255 |}.

Definition unreadable_ops : fscrypt_operations :=
  {| get_context := fun _ => (- ERANGE, zero_context);
     set_context := storing_set_context;
     empty_dir := fun _ => true;
     max_namelen := 255 |}.

(** Encryption info that resolves for directories only, and a cipher
    that refuses buffers shorter than one block and otherwise flips the
    same bits of every byte. *)
Definition dirs_only_info (i : inode) : Z * inode :=
  if Z.land (i_mode i) S_IFMT =? S_IFDIR then (0, i) else (- ENOMEM, i).

Definition block_cipher (ci : fscrypt_info) (buf : list byte)
  : Z * list byte :=
  if len buf <? FS_CRYPTO_BLOCK_SIZE then (- EINVAL, [])
  else (0, map (fun b => to_u8 (Z.lxor (u8 b) 0x5A)) buf).

Definition plain_dir_file : file :=
  {| f_inode := plain_dir;
     inode_owner_or_capable := true;
     mnt_want_write_file := 0 |}.

Definition plain_child_file : file :=
  {| f_inode := plain_child;
     inode_owner_or_capable := true;
     mnt_want_write_file := 0 |}.

Section Fscrypt.

(** *** Collaborators *)

(** [fscrypt_valid_enc_modes()] of fscrypt_private.h. *)
Variable fscrypt_valid_enc_modes : Z -> Z -> bool.
(** The filesystem's [s_cop] table. *)
Variable s_cop : fscrypt_operations.
(** [get_random_bytes(buf, n)]: the bytes it stores. *)
Variable get_random_bytes : nat -> list byte.
(** [fscrypt_get_encryption_info()] of keyinfo.c: a status, and the inode
    with [i_crypt_info] installed when the key was found. *)
Variable fscrypt_get_encryption_info : inode -> Z * inode.
(** [kmalloc(size, gfp) != NULL] *)
Variable kmalloc : Z -> bool.
(** [skcipher_request_alloc(tfm, GFP_NOFS) != NULL] *)
Variable skcipher_request_alloc : bool.
(** [crypto_wait_req(crypto_skcipher_encrypt(req), &wait)] and its
    decrypting twin on an in-place buffer: status and buffer contents. *)
Variable skcipher_encrypt : fscrypt_info -> list byte -> Z * list byte.
Variable skcipher_decrypt : fscrypt_info -> list byte -> Z * list byte.
(** The shared sha256 handle read from [sha256_hash_tfm], or the outcome
    of [crypto_alloc_shash] when none is installed yet (the install race
    is not part of this sequential model); [0] stands for success. *)
Variable sha256_tfm_err : Z.
(** [crypto_shash_digest(desc, data, data_len, result)]: status and the
    32 bytes stored in [result]. *)
Variable crypto_shash_digest : list byte -> Z * list byte.

(** *** Policy functions *)

Definition fscrypt_supported_v1_policy (policy : fscrypt_policy)
           (i : inode) : bool :=
  if negb (fscrypt_valid_enc_modes (u8 (contents_encryption_mode policy))
                                   (u8 (filenames_encryption_mode policy)))
  then false
  else if negb (Z.land (u8 (flags policy))
                       (Z.lnot (Z.lor FSCRYPT_POLICY_FLAGS_PAD_MASK
                                      FSCRYPT_POLICY_FLAG_DIRECT_KEY)) =? 0)
  then false
  else if negb (Z.land (u8 (flags policy)) FSCRYPT_POLICY_FLAG_DIRECT_KEY =? 0)
  then false
  else if IS_CASEFOLDED i
  then false
  else true.

Definition fscrypt_supported_policy (policy_u : fscrypt_policy)
           (i : inode) : bool :=
  if u8 (version policy_u) =? FSCRYPT_POLICY_V1
  then fscrypt_supported_v1_policy policy_u i
  else false.

(** Returns the context and [sizeof( *ctx)]. *)
Definition fscrypt_new_context_from_policy (policy_u : fscrypt_policy)
  : fscrypt_context * Z :=
  let ctx := zero_context in
  ({| ctx_version := to_u8 1;
      ctx_contents_encryption_mode := contents_encryption_mode policy_u;
      ctx_filenames_encryption_mode := filenames_encryption_mode policy_u;
      ctx_flags := flags policy_u;
      ctx_master_key_descriptor :=
        memcpy (ctx_master_key_descriptor ctx)
               (master_key_descriptor policy_u) FSCRYPT_KEY_DESCRIPTOR_SIZE;
      ctx_nonce :=
        memcpy (ctx_nonce ctx)
               (get_random_bytes FS_KEY_DERIVATION_NONCE_SIZE)
               FS_KEY_DERIVATION_NONCE_SIZE |},
   sizeof_context_v1).

Definition set_encryption_policy (i : inode) (policy : fscrypt_policy)
  : Z * inode :=
  if negb (fscrypt_supported_policy policy i) then (- EINVAL, i)
  else
    let '(ctx, ctxsize) := fscrypt_new_context_from_policy policy in
    set_context s_cop i ctx ctxsize.

Definition fscrypt_policies_equal (policy1 policy2 : fscrypt_policy) : bool :=
  if negb (u8 (version policy1) =? u8 (version policy2)) then false
  else memcmp_eq (policy_bytes policy1) (policy_bytes policy2)
                 (fscrypt_policy_size policy1).

(** [ctx_size] is not read by the C function either. *)
Definition fscrypt_policy_from_context (ctx_u : fscrypt_context)
           (ctx_size : Z) : result fscrypt_policy :=
  let policy := zero_policy in
  if u8 (ctx_version ctx_u) =? 1
  then Ok {| version := to_u8 FSCRYPT_POLICY_V1;
             contents_encryption_mode := ctx_contents_encryption_mode ctx_u;
             filenames_encryption_mode := ctx_filenames_encryption_mode ctx_u;
             flags := ctx_flags ctx_u;
             master_key_descriptor :=
               memcpy (master_key_descriptor policy)
                      (ctx_master_key_descriptor ctx_u)
                      FSCRYPT_KEY_DESCRIPTOR_SIZE |}
  else Err (- EINVAL).

Definition fscrypt_get_policy (i : inode) : result fscrypt_policy :=
  match i_crypt_info i with
  | Some ci => Ok (ci_policy ci)
  | None =>
      if negb (IS_ENCRYPTED i) then Err (- ENODATA)
      else
        let '(ret, ctx) := get_context s_cop i in
        if ret <? 0
        then Err (if ret =? - ERANGE then - EINVAL else ret)
        else fscrypt_policy_from_context ctx ret
  end.

(** [arg] is the user memory readable from the address [arg] on; a read
    past its end faults.  Returns the status and the inode afterwards. *)
Definition fscrypt_ioctl_set_policy (filp : file) (arg : list byte)
  : Z * inode :=
  let i := f_inode filp in
  match arg with
  | [] => (- EFAULT, i)
  | v :: _ =>
      let size := fscrypt_policy_size_v v in
      if size <=? 0 then (- EINVAL, i)
      else if len arg <? size then (- EFAULT, i)
      else
        let copied := policy_of_bytes (firstn (Z.to_nat size) arg) in
        let policy :=
          {| version := v;
             contents_encryption_mode := contents_encryption_mode copied;
             filenames_encryption_mode := filenames_encryption_mode copied;
             flags := flags copied;
             master_key_descriptor := master_key_descriptor copied |} in
        if negb (inode_owner_or_capable filp) then (- EACCES, i)
        else
          let ret := mnt_want_write_file filp in
          if negb (ret =? 0) then (ret, i)
          else
            match fscrypt_get_policy i with
            | Err ret =>
                if ret =? - ENODATA then
                  if negb (S_ISDIR (i_mode i)) then (- ENOTDIR, i)
                  else if IS_DEADDIR i then (- ENOENT, i)
                  else if negb (empty_dir s_cop i) then (- ENOTEMPTY, i)
                  else set_encryption_policy i policy
                else if ret =? - EINVAL then (- EEXIST, i)
                else (ret, i)
            | Ok existing_policy =>
                if negb (fscrypt_policies_equal policy existing_policy)
                then (- EEXIST, i)
                else (0, i)
            end
  end.

(** [parent] and [child] are distinct inodes; the [i_crypt_info] that
    [fscrypt_get_encryption_info] installs is what [fscrypt_get_policy]
    then reads. *)
Definition fscrypt_has_permitted_context (parent child : inode) : Z :=
  if negb (S_ISREG (i_mode child)) && negb (S_ISDIR (i_mode child))
     && negb (S_ISLNK (i_mode child))
  then 1
  else if negb (IS_ENCRYPTED parent) then 1
  else if negb (IS_ENCRYPTED child) then 0
  else
    let '(err, parent1) := fscrypt_get_encryption_info parent in
    if negb (err =? 0) then 0
    else
      let '(err, child1) := fscrypt_get_encryption_info child in
      if negb (err =? 0) then 0
      else
        match fscrypt_get_policy parent1 with
        | Err _ => 0
        | Ok parent_policy =>
            match fscrypt_get_policy child1 with
            | Err _ => 0
            | Ok child_policy =>
                Z.b2z (fscrypt_policies_equal parent_policy child_policy)
            end
        end.

(** *** Filename functions *)

Definition fscrypt_is_dot_dotdot (str : list byte) : bool :=
  if (len str =? 1) && Byte.eqb (nth 0 str x00) byte_dot then true
  else if (len str =? 2) && Byte.eqb (nth 0 str x00) byte_dot
          && Byte.eqb (nth 1 str x00) byte_dot then true
  else false.

(** [strnlen(s, n)] *)
Fixpoint strnlen (s : list byte) (n : nat) : nat :=
  match n, s with
  | S n', c :: s' => if Byte.eqb c x00 then O else S (strnlen s' n')
  | _, _ => O
  end.

(** [fname_encrypt()], given [inode->i_crypt_info]: status and the
    contents of [out]. *)
Definition fname_encrypt (ci : fscrypt_info) (iname : list byte)
           (olen : Z) : Z * list byte :=
  if olen <? len iname then (- ENOBUFS, [])
  else
    let out := iname ++ repeat x00 (Z.to_nat (olen - len iname)) in
    if negb skcipher_request_alloc then (- ENOMEM, out)
    else
      let '(res, out1) := skcipher_encrypt ci out in
      if res <? 0 then (res, out1) else (0, out1).

(** [fname_decrypt()], given [inode->i_crypt_info]: the name stored in
    [oname], cut at [oname->len]. *)
Definition fname_decrypt (ci : fscrypt_info) (iname : list byte)
  : result (list byte) :=
  if negb skcipher_request_alloc then Err (- ENOMEM)
  else
    let '(res, out) := skcipher_decrypt ci iname in
    if res <? 0 then Err res
    else Ok (firstn (strnlen out (List.length iname)) out).

(** [int padding = 4 << (inode->i_crypt_info->ci_flags &
    FS_POLICY_FLAGS_PAD_MASK);] of [fscrypt_fname_encrypted_size]. *)
Definition fname_padding (ci : fscrypt_info) : Z :=
  Z.shiftl 4 (Z.land (u8 (ci_flags ci)) FS_POLICY_FLAGS_PAD_MASK).

(** [false] is [None]; otherwise the value stored in [encrypted_len_ret].
    [orig_len] and [max_len] are [u32]; [ci] is [inode->i_crypt_info]. *)
Definition fscrypt_fname_encrypted_size (ci : fscrypt_info)
           (orig_len max_len : Z) : option Z :=
  let padding := fname_padding ci in
  if orig_len >? max_len then None
  else
    let encrypted_len := Z.max orig_len FS_CRYPTO_BLOCK_SIZE in
    let encrypted_len := round_up encrypted_len padding in
    Some (Z.min encrypted_len max_len).

(** [fscrypt_do_sha256()]: the error of obtaining the shared handle, or
    the status of the digest and the bytes stored in [result]. *)
Definition fscrypt_do_sha256 (data : list byte) : Z * list byte :=
  if negb (sha256_tfm_err =? 0) then (sha256_tfm_err, [])
  else crypto_shash_digest data.

(** Returns the name stored in [oname] (its first [oname->len] bytes). *)
Definition fscrypt_fname_disk_to_usr (i : inode) (hash minor_hash : Z)
           (iname : list byte) : result (list byte) :=
  if fscrypt_is_dot_dotdot iname
  then Ok (repeat byte_dot (List.length iname))
  else if len iname <? FS_CRYPTO_BLOCK_SIZE then Err (- EUCLEAN)
  else
    match i_crypt_info i with
    | Some ci => fname_decrypt ci iname
    | None =>
        let '(d0, d1) := if negb (hash =? 0) then (hash, minor_hash)
                         else (0, 0) in
        if len iname <=? sizeof_nokey_bytes
        then
          let nokey_name :=
            {| dirhash0 := d0; dirhash1 := d1;
               nk_bytes := firstn (List.length iname) iname;
               nk_sha256 := [] |} in
          let size := offsetof_bytes (len iname) in
          Ok (base64_encode (nokey_name_bytes nokey_name size))
        else
          let '(err, digest) :=
            fscrypt_do_sha256 (skipn (Z.to_nat sizeof_nokey_bytes) iname) in
          if negb (err =? 0) then Err err
          else
            let nokey_name :=
              {| dirhash0 := d0; dirhash1 := d1;
                 nk_bytes := firstn (Z.to_nat sizeof_nokey_bytes) iname;
                 nk_sha256 := digest |} in
            let size := FSCRYPT_NOKEY_NAME_MAX in
            Ok (base64_encode (nokey_name_bytes nokey_name size))
    end.

(** Returns the status and [fname] as the call leaves it.  On the error
    paths that free [crypto_buf.name] the pointer is left dangling in C;
    it is kept here as it was. *)
Definition fscrypt_setup_filename (dir : inode) (iname : list byte)
           (lookup : Z) : Z * fscrypt_name :=
  let fname :=
    {| usr_fname := iname; disk_name := null_str; hash := 0;
       minor_hash := 0; crypto_buf := null_str;
       is_ciphertext_name := false |} in
  if negb (IS_ENCRYPTED dir) || fscrypt_is_dot_dotdot iname
  then (0, {| usr_fname := iname;
              disk_name := {| name := Some iname; str_len := len iname |};
              hash := 0; minor_hash := 0; crypto_buf := null_str;
              is_ciphertext_name := false |})
  else
    let '(ret, dir1) := fscrypt_get_encryption_info dir in
    if negb (ret =? 0) then (ret, fname)
    else
      match i_crypt_info dir1 with
      | Some ci =>
          match fscrypt_fname_encrypted_size ci (len iname)
                                             (max_namelen s_cop) with
          | None => (- ENAMETOOLONG, fname)
          | Some clen =>
              let fname1 :=
                {| usr_fname := iname; disk_name := null_str; hash := 0;
                   minor_hash := 0;
                   crypto_buf := {| name := None; str_len := clen |};
                   is_ciphertext_name := false |} in
              if negb (kmalloc clen) then (- ENOMEM, fname1)
              else
                let '(ret, buf) := fname_encrypt ci iname clen in
                let fname2 :=
                  {| usr_fname := iname; disk_name := null_str; hash := 0;
                     minor_hash := 0;
                     crypto_buf := {| name := Some buf; str_len := clen |};
                     is_ciphertext_name := false |} in
                if negb (ret =? 0) then (ret, fname2)
                else
                  (0, {| usr_fname := iname;
                         disk_name := {| name := Some buf; str_len := clen |};
                         hash := 0; minor_hash := 0;
                         crypto_buf := {| name := Some buf; str_len := clen |};
                         is_ciphertext_name := false |})
          end
      | None =>
          if lookup =? 0 then (- ENOKEY, fname)
          else
            let fname1 :=
              {| usr_fname := iname; disk_name := null_str; hash := 0;
                 minor_hash := 0; crypto_buf := null_str;
                 is_ciphertext_name := true |} in
            if len iname >? BASE64_CHARS FSCRYPT_NOKEY_NAME_MAX
            then (- ENOENT, fname1)
            else if negb (kmalloc FSCRYPT_NOKEY_NAME_MAX)
            then (- ENOMEM, fname1)
            else
              let '(ret, buf) := base64_decode iname in
              if (ret <? offsetof_bytes 1)
                 || ((ret >? offsetof_sha256)
                     && negb (ret =? FSCRYPT_NOKEY_NAME_MAX))
              then (- ENOENT,
                    {| usr_fname := iname; disk_name := null_str; hash := 0;
                       minor_hash := 0;
                       crypto_buf := {| name := Some buf; str_len := 0 |};
                       is_ciphertext_name := true |})
              else
                (0, {| usr_fname := iname;
                       disk_name :=
                         if negb (ret =? FSCRYPT_NOKEY_NAME_MAX)
                         then {| name := Some (skipn 8 buf);
                                 str_len := ret - offsetof_bytes 0 |}
                         else null_str;
                       hash := u32_of_bytes (firstn 4 buf);
                       minor_hash := u32_of_bytes (firstn 4 (skipn 4 buf));
                       crypto_buf := {| name := Some buf; str_len := ret |};
                       is_ciphertext_name := true |})
      end.


(** *** The other entry points *)

(** [copy_to_user(to, from, n)] where [cap] bytes are writable from [to]
    on: the number of bytes that could not be copied, and the bytes
    stored. *)
Definition copy_to_user (cap : Z) (from : list byte) (n : Z)
  : Z * list byte :=
  let copied := Z.min (Z.max cap 0) n in
  (n - copied, firstn (Z.to_nat copied) from).

(** [fscrypt_ioctl_get_policy()]: the status and what was stored at
    [arg], of which [cap] bytes are writable. *)
Definition fscrypt_ioctl_get_policy (filp : file) (cap : Z)
  : Z * list byte :=
  match fscrypt_get_policy (f_inode filp) with
  | Err err => (err, [])
  | Ok policy =>
      if negb (u8 (version policy) =? FSCRYPT_POLICY_V1) then (- EINVAL, [])
      else
        let '(uncopied, stored) :=
          copy_to_user cap (policy_bytes policy) sizeof_policy_v1 in
        if negb (uncopied =? 0) then (- EFAULT, stored) else (0, stored)
  end.

(** [fscrypt_inherit_context()]: the status, and [parent] and [child] as
    the call leaves them.  [set_context_fs_data] stands for
    [parent->i_sb->s_cop->set_context(., ., ., fs_data)] with the caller's
    [fs_data]. *)
Definition fscrypt_inherit_context
           (set_context_fs_data : inode -> fscrypt_context -> Z -> Z * inode)
           (parent child : inode) (preload : bool) : Z * inode * inode :=
  let '(res, parent1) := fscrypt_get_encryption_info parent in
  if res <? 0 then (res, parent1, child)
  else
    match i_crypt_info parent1 with
    | None => (- ENOKEY, parent1, child)
    | Some ci =>
        let '(ctx, ctxsize) := fscrypt_new_context_from_policy (ci_policy ci) in
        let '(res, child1) := set_context_fs_data child ctx ctxsize in
        if negb (res =? 0) then (res, parent1, child1)
        else if preload
             then let '(res, child2) := fscrypt_get_encryption_info child1 in
                  (res, parent1, child2)
             else (0, parent1, child1)
    end.

(** * Properties *)

(** A lemma depends on the collaborators its statement names and on no
    other. *)
#[local] Set Default Proof Using "Type".

(** ** Bytes *)

Lemma u8_range (b : byte) : 0 <= u8 b < 256.
Proof.
  unfold u8. pose proof (Byte.to_N_bounded b) as H. lia.
Qed.

Lemma to_u8_u8 (b : byte) : to_u8 (u8 b) = b.
Proof.
  unfold to_u8. rewrite Z.mod_small by apply u8_range.
  unfold u8. rewrite N2Z.id, Byte.of_to_N. reflexivity.
Qed.

Lemma u8_to_u8 (z : Z) : u8 (to_u8 z) = z mod 256.
Proof.
  unfold to_u8, u8.
  assert (Hr : 0 <= z mod 256 < 256) by (apply Z.mod_pos_bound; lia).
  destruct (Byte.of_N (Z.to_N (z mod 256))) as [b|] eqn:E.
  - apply Byte.to_of_N in E. rewrite E. lia.
  - apply Byte.of_N_None_iff in E. lia.
Qed.

Lemma to_u8_small (z : Z) (b : byte) : z = u8 b -> to_u8 z = b.
Proof. intros ->. apply to_u8_u8. Qed.

(** ** Base64: helper lemmas *)

(** Checking a decidable property of every index below a bound. *)
Lemma forall_below (P : Z -> bool) (n : nat) :
  forallb P (map Z.of_nat (seq 0 n)) = true ->
  forall v, 0 <= v < Z.of_nat n -> P v = true.
Proof.
  intros H v Hv. rewrite forallb_forall in H. apply H.
  apply in_map_iff. exists (Z.to_nat v). split; [lia|].
  apply in_seq. lia.
Qed.

Lemma strchr_lookup (v : Z) :
  0 <= v < 64 ->
  strchr lookup_table (lookup v) 0 = Some v /\ Byte.eqb (lookup v) x00 = false.
Proof.
  intros Hv.
  pose (P := fun v => match strchr lookup_table (lookup v) 0 with
                      | Some w => (w =? v) && negb (Byte.eqb (lookup v) x00)
                      | None => false end).
  assert (HP : P v = true) by (apply (forall_below P 64); [vm_compute; reflexivity | lia]).
  unfold P in HP. destruct (strchr lookup_table (lookup v) 0) as [w|]; [|discriminate].
  apply andb_true_iff in HP. destruct HP as [H1 H2].
  apply Z.eqb_eq in H1. subst w. split; [reflexivity|].
  now destruct (Byte.eqb (lookup v) x00).
Qed.

Lemma land63 (x : Z) : Z.land x 63 = x mod 64.
Proof. change 63 with (Z.ones 6). rewrite Z.land_ones by lia. reflexivity. Qed.
Lemma land255 (x : Z) : Z.land x 255 = x mod 256.
Proof. change 255 with (Z.ones 8). rewrite Z.land_ones by lia. reflexivity. Qed.


Lemma sextets_last (fuel : nat) (ac bits : Z) :
  bits < 12 ->
  sextets fuel ac bits = ([lookup (ac mod 64)], ac / 64, bits - 6).
Proof.
  intros Hb. destruct fuel; cbn [sextets].
  - rewrite land63, Z.shiftr_div_pow2 by lia. reflexivity.
  - destruct (6 <=? bits - 6) eqn:E; [apply Z.leb_le in E; lia|].
    rewrite land63, Z.shiftr_div_pow2 by lia. reflexivity.
Qed.

Lemma sextets_more (fuel : nat) (ac bits : Z) :
  12 <= bits ->
  sextets (S fuel) ac bits =
  let '(cs, a, b) := sextets fuel (ac / 64) (bits - 6) in
  (lookup (ac mod 64) :: cs, a, b).
Proof.
  intros Hb. cbn [sextets].
  destruct (6 <=? bits - 6) eqn:E; [|apply Z.leb_gt in E; lia].
  rewrite land63, Z.shiftr_div_pow2 by lia. reflexivity.
Qed.

(** With fuel for [bits / 6] rounds the loop leaves by [bits < 6]. *)
Lemma sextets_exit (fuel : nat) :
  forall ac bits,
    6 <= bits < 6 * (Z.of_nat fuel + 2) ->
    0 <= snd (sextets fuel ac bits) < 6.
Proof.
  induction fuel as [|fuel IH]; intros ac bits Hb; cbn [sextets].
  - cbn [snd]. lia.
  - destruct (6 <=? bits - 6) eqn:E.
    + apply Z.leb_le in E.
      specialize (IH (Z.shiftr ac 6) (bits - 6)).
      destruct (sextets fuel (Z.shiftr ac 6) (bits - 6)) as [[cs a] b].
      cbn [snd] in *. apply IH. lia.
    + apply Z.leb_gt in E. cbn [snd]. lia.
Qed.

(** The three states the encoder loop can be in. *)
Lemma encode_step_0 (x : byte) (rest : list byte) :
  encode_loop (x :: rest) 0 0 =
  lookup (u8 x mod 64) :: encode_loop rest 2 (u8 x / 64).
Proof.
  cbn [encode_loop]. rewrite Z.shiftl_0_r, Z.add_0_l.
  change (0 + 8) with 8. rewrite sextets_last by lia. reflexivity.
Qed.

Lemma encode_step_2 (x : byte) (rest : list byte) (ac : Z) :
  encode_loop (x :: rest) 2 ac =
  lookup ((ac + u8 x * 4) mod 64) :: encode_loop rest 4 ((ac + u8 x * 4) / 64).
Proof.
  cbn [encode_loop]. rewrite Z.shiftl_mul_pow2 by lia.
  change (2 + 8) with 10. rewrite sextets_last by lia. reflexivity.
Qed.

Lemma encode_step_4 (x : byte) (rest : list byte) (ac : Z) :
  encode_loop (x :: rest) 4 ac =
  lookup ((ac + u8 x * 16) mod 64)
  :: lookup ((ac + u8 x * 16) / 64 mod 64)
  :: encode_loop rest 0 ((ac + u8 x * 16) / 64 / 64).
Proof.
  cbn [encode_loop]. rewrite Z.shiftl_mul_pow2 by lia.
  change (4 + 8) with 12. change (Z.to_nat 12) with (S 11).
  rewrite sextets_more by lia. change (12 - 6) with 6.
  rewrite sextets_last by lia. reflexivity.
Qed.


Lemma decode_step (c : byte) (rest : list byte) (bits ac : Z) (out : list byte) (v : Z) :
  0 <= v < 64 -> c = lookup v -> 0 <= bits ->
  decode_loop (c :: rest) bits ac out =
  if 8 <=? bits + 6
  then decode_loop rest (bits + 6 - 8) ((ac + v * 2 ^ bits) / 256)
                   (out ++ [to_u8 ((ac + v * 2 ^ bits) mod 256)])
  else decode_loop rest (bits + 6) (ac + v * 2 ^ bits) out.
Proof.
  intros Hv -> Hb. cbn [decode_loop].
  destruct (strchr_lookup v Hv) as [-> ->].
  rewrite Z.shiftl_mul_pow2, land255, Z.shiftr_div_pow2 by lia. reflexivity.
Qed.

(** Drops the collaborators a goal does not mention, so that tactics which
    sweep the whole context ([tauto], the division preprocessing) do not
    drag them into a proof. *)
Ltac clear_collaborators :=
  try clear fscrypt_valid_enc_modes; try clear s_cop;
  try clear get_random_bytes; try clear fscrypt_get_encryption_info;
  try clear kmalloc; try clear skcipher_request_alloc;
  try clear skcipher_encrypt; try clear skcipher_decrypt;
  try clear sha256_tfm_err; try clear crypto_shash_digest.

(** Linear arithmetic with division and remainder by constants. *)
Ltac divmod := clear_collaborators; Z.div_mod_to_equations; lia.

Lemma snoc_app {A} (l : list A) (x : A) (r : list A) : (l ++ [x]) ++ r = l ++ x :: r.
Proof. rewrite <- app_assoc. reflexivity. Qed.

Lemma roundtrip_loop (src : list byte) :
  forall out,
    decode_loop (encode_loop src 0 0) 0 0 out = (len (out ++ src), out ++ src)
    /\ (forall p, decode_loop (encode_loop src 2 (u8 p / 64)) 6 (u8 p mod 64) out
                  = (len (out ++ p :: src), out ++ p :: src))
    /\ (forall p, decode_loop (encode_loop src 4 (u8 p / 16)) 4 (u8 p mod 16) out
                  = (len (out ++ p :: src), out ++ p :: src)).
Proof.
  induction src as [|x rest IH]; intros out.
  - repeat split.
    + cbn. rewrite app_nil_r. reflexivity.
    + intros p. pose proof (u8_range p) as Hp.
      cbn [encode_loop]. change (2 =? 0) with false. cbv iota.
      rewrite land63.
      rewrite (decode_step _ _ _ _ _ (u8 p / 64)); [| divmod | f_equal; divmod | lia].
      change (8 <=? 6 + 6) with true. cbv iota. change (2 ^ 6) with 64.
      replace ((u8 p mod 64 + u8 p / 64 * 64) mod 256) with (u8 p) by divmod.
      replace ((u8 p mod 64 + u8 p / 64 * 64) / 256) with 0 by divmod.
      rewrite to_u8_u8. cbn [decode_loop]. change (0 =? 0) with true. cbv iota.
      reflexivity.
    + intros p. pose proof (u8_range p) as Hp.
      cbn [encode_loop]. change (4 =? 0) with false. cbv iota.
      rewrite land63.
      rewrite (decode_step _ _ _ _ _ (u8 p / 16)); [| divmod | f_equal; divmod | lia].
      change (8 <=? 4 + 6) with true. cbv iota. change (2 ^ 4) with 16.
      replace ((u8 p mod 16 + u8 p / 16 * 16) mod 256) with (u8 p) by divmod.
      replace ((u8 p mod 16 + u8 p / 16 * 16) / 256) with 0 by divmod.
      rewrite to_u8_u8. cbn [decode_loop]. change (0 =? 0) with true. cbv iota.
      reflexivity.
  - pose proof (u8_range x) as Hx. repeat split.
    + rewrite encode_step_0.
      rewrite (decode_step _ _ _ _ _ (u8 x mod 64)); [| divmod | reflexivity | lia].
      change (8 <=? 0 + 6) with false. cbv iota.
      replace (0 + u8 x mod 64 * 2 ^ 0) with (u8 x mod 64) by lia.
      change (0 + 6) with 6.
      destruct (IH out) as (_ & H2 & _). apply H2.
    + intros p. pose proof (u8_range p) as Hp.
      rewrite encode_step_2.
      rewrite (decode_step _ _ _ _ _ ((u8 p / 64 + u8 x * 4) mod 64));
        [| divmod | reflexivity | lia].
      change (8 <=? 6 + 6) with true. cbv iota. change (2 ^ 6) with 64.
      change (6 + 6 - 8) with 4.
      replace ((u8 p mod 64 + (u8 p / 64 + u8 x * 4) mod 64 * 64) mod 256)
        with (u8 p) by divmod.
      replace ((u8 p mod 64 + (u8 p / 64 + u8 x * 4) mod 64 * 64) / 256)
        with (u8 x mod 16) by divmod.
      replace ((u8 p / 64 + u8 x * 4) / 64) with (u8 x / 16) by divmod.
      rewrite to_u8_u8.
      destruct (IH (out ++ [p])) as (_ & _ & H3). rewrite H3.
      rewrite snoc_app. reflexivity.
    + intros p. pose proof (u8_range p) as Hp.
      rewrite encode_step_4.
      rewrite (decode_step _ _ _ _ _ ((u8 p / 16 + u8 x * 16) mod 64));
        [| divmod | reflexivity | lia].
      change (8 <=? 4 + 6) with true. cbv iota. change (2 ^ 4) with 16.
      change (4 + 6 - 8) with 2.
      replace ((u8 p mod 16 + (u8 p / 16 + u8 x * 16) mod 64 * 16) mod 256)
        with (u8 p) by divmod.
      replace ((u8 p mod 16 + (u8 p / 16 + u8 x * 16) mod 64 * 16) / 256)
        with (u8 x mod 4) by divmod.
      rewrite (decode_step _ _ _ _ _ ((u8 p / 16 + u8 x * 16) / 64 mod 64));
        [| divmod | reflexivity | lia].
      change (8 <=? 2 + 6) with true. cbv iota. change (2 ^ 2) with 4.
      change (2 + 6 - 8) with 0.
      replace ((u8 x mod 4 + (u8 p / 16 + u8 x * 16) / 64 mod 64 * 4) mod 256)
        with (u8 x) by divmod.
      replace ((u8 x mod 4 + (u8 p / 16 + u8 x * 16) / 64 mod 64 * 4) / 256)
        with 0 by divmod.
      replace ((u8 p / 16 + u8 x * 16) / 64 / 64) with 0 by divmod.
      rewrite !to_u8_u8.
      destruct (IH ((out ++ [p]) ++ [x])) as (H1 & _ & _). rewrite H1.
      rewrite !snoc_app. reflexivity.
Qed.

Lemma base64_roundtrip (b : list byte) :
  base64_decode (base64_encode b) = (len b, b).
Proof.
  unfold base64_decode, base64_encode.
  destruct (roundtrip_loop b []) as (H & _ & _). exact H.
Qed.


Lemma le_value_nonneg (b : list byte) : 0 <= le_value b.
Proof.
  induction b as [|x r IH]; cbn [le_value]; [lia|].
  pose proof (u8_range x). lia.
Qed.

Lemma len_cons {A} (x : A) (l : list A) : len (x :: l) = 1 + len l.
Proof. unfold len. cbn [List.length]. lia. Qed.
Lemma len_nil {A} : len (@nil A) = 0.
Proof. reflexivity. Qed.
Lemma len_nonneg {A} (l : list A) : 0 <= len l.
Proof. unfold len. lia. Qed.
Lemma len_app {A} (l r : list A) : len (l ++ r) = len l + len r.
Proof. unfold len. rewrite length_app. lia. Qed.

Lemma digits64_S (n : Z) (v : Z) :
  0 <= n ->
  digits64 (Z.to_nat (1 + n)) v = v mod 64 :: digits64 (Z.to_nat n) (v / 64).
Proof.
  intros Hn. replace (Z.to_nat (1 + n)) with (S (Z.to_nat n)) by lia. reflexivity.
Qed.

Lemma encode_loop_digits (src : list byte) :
  forall bits ac,
    (bits = 0 /\ ac = 0) \/ (bits = 2 /\ 0 <= ac < 4) \/ (bits = 4 /\ 0 <= ac < 16) ->
    encode_loop src bits ac =
    map lookup (digits64 (Z.to_nat ((8 * len src + bits + 5) / 6))
                         (ac + 2 ^ bits * le_value src)).
Proof.
  induction src as [|x rest IH]; intros bits ac H.
  - change (len (@nil byte)) with 0. cbn [le_value encode_loop].
    destruct H as [[-> ->] | [[-> Hac] | [-> Hac]]].
    + reflexivity.
    + change (2 =? 0) with false. cbv iota. rewrite land63.
      change (Z.to_nat ((8 * 0 + 2 + 5) / 6)) with 1%nat. cbn [digits64 map].
      rewrite Z.mul_0_r, Z.add_0_r. reflexivity.
    + change (4 =? 0) with false. cbv iota. rewrite land63.
      change (Z.to_nat ((8 * 0 + 4 + 5) / 6)) with 1%nat. cbn [digits64 map].
      rewrite Z.mul_0_r, Z.add_0_r. reflexivity.
  - rewrite len_cons. cbn [le_value].
    pose proof (u8_range x) as Hx. pose proof (le_value_nonneg rest) as HL.
    pose proof (len_nonneg rest) as Hn.
    set (L := le_value rest) in *. set (n := len rest) in *.
    destruct H as [[-> ->] | [[-> Hac] | [-> Hac]]].
    + rewrite encode_step_0, IH by (right; left; split; [reflexivity | divmod]).
      fold n; fold L.
      replace ((8 * (1 + n) + 0 + 5) / 6) with (1 + (8 * n + 2 + 5) / 6) by divmod.
      rewrite digits64_S by divmod. cbn [map].
      change (2 ^ 0) with 1. change (2 ^ 2) with 4.
      f_equal; [f_equal; divmod | do 2 f_equal; divmod].
    + rewrite encode_step_2, IH by (right; right; split; [reflexivity | divmod]).
      fold n; fold L.
      replace ((8 * (1 + n) + 2 + 5) / 6) with (1 + (8 * n + 4 + 5) / 6) by divmod.
      rewrite digits64_S by divmod. cbn [map].
      change (2 ^ 2) with 4. change (2 ^ 4) with 16.
      f_equal; [f_equal; divmod | do 2 f_equal; divmod].
    + rewrite encode_step_4, IH by (left; split; [reflexivity | divmod]).
      fold n; fold L.
      replace ((8 * (1 + n) + 4 + 5) / 6) with (1 + (1 + (8 * n + 0 + 5) / 6)) by divmod.
      rewrite !digits64_S by divmod. cbn [map].
      change (2 ^ 0) with 1. change (2 ^ 4) with 16.
      f_equal; [f_equal; divmod | f_equal; [f_equal; divmod | do 2 f_equal; divmod]].
Qed.

Lemma testbit_add_low (a L t : Z) :
  0 <= a < 256 -> 0 <= t < 8 -> Z.testbit (a + 256 * L) t = Z.testbit a t.
Proof.
  intros Ha Ht.
  rewrite <- (Z.mod_pow2_bits_low (a + 256 * L) 8 t) by lia.
  change (2 ^ 8) with 256. f_equal. divmod.
Qed.

Lemma testbit_add_high (a L t : Z) :
  0 <= a < 256 -> 8 <= t -> Z.testbit (a + 256 * L) t = Z.testbit L (t - 8).
Proof.
  intros Ha Ht.
  replace t with (t - 8 + 8) at 1 by lia.
  rewrite <- Z.div_pow2_bits by lia.
  change (2 ^ 8) with 256. f_equal. divmod.
Qed.

Lemma le_value_testbit (b : list byte) :
  forall t, 0 <= t -> Z.testbit (le_value b) t = stream_bit_lsb b t.
Proof.
  unfold stream_bit_lsb.
  induction b as [|x r IH]; intros t Ht; cbn [le_value].
  - rewrite Z.testbit_0_l.
    assert (E : nth (Z.to_nat (t / 8)) (@nil byte) x00 = x00)
      by (destruct (Z.to_nat (t / 8)); reflexivity).
    rewrite E. change (u8 x00) with 0. rewrite Z.testbit_0_l. reflexivity.
  - pose proof (u8_range x) as Hx.
    destruct (Z_lt_ge_dec t 8) as [Hlt|Hge].
    + rewrite testbit_add_low by lia.
      replace (t / 8) with 0 by divmod. replace (t mod 8) with t by divmod.
      reflexivity.
    + rewrite testbit_add_high by lia. rewrite IH by lia.
      replace (Z.to_nat (t / 8)) with (S (Z.to_nat ((t - 8) / 8))) by divmod.
      replace (t mod 8) with ((t - 8) mod 8) by divmod.
      reflexivity.
Qed.

Lemma bits6 (x : Z) :
  0 <= x < 64 ->
  x = Z.b2z (Z.testbit x 0) + 2 * Z.b2z (Z.testbit x 1)
      + 4 * Z.b2z (Z.testbit x 2) + 8 * Z.b2z (Z.testbit x 3)
      + 16 * Z.b2z (Z.testbit x 4) + 32 * Z.b2z (Z.testbit x 5).
Proof.
  intros Hx. apply Z.eqb_eq.
  apply (forall_below
           (fun x => x =? Z.b2z (Z.testbit x 0) + 2 * Z.b2z (Z.testbit x 1)
                          + 4 * Z.b2z (Z.testbit x 2) + 8 * Z.b2z (Z.testbit x 3)
                          + 16 * Z.b2z (Z.testbit x 4) + 32 * Z.b2z (Z.testbit x 5)) 64);
    [vm_compute; reflexivity | lia].
Qed.

Lemma digit_testbit (v j i : Z) :
  0 <= j -> 0 <= i < 6 ->
  Z.testbit ((v / 64 ^ j) mod 64) i = Z.testbit v (6 * j + i).
Proof.
  intros Hj Hi.
  change 64 with (2 ^ 6). rewrite <- Z.pow_mul_r by lia.
  rewrite Z.mod_pow2_bits_low by lia.
  rewrite Z.div_pow2_bits by lia. f_equal. lia.
Qed.

Lemma digit_group (b : list byte) (j : Z) :
  0 <= j -> (le_value b / 64 ^ j) mod 64 = group_lsb b j.
Proof.
  intros Hj. unfold group_lsb.
  rewrite <- !le_value_testbit by lia.
  assert (Hr : 0 <= (le_value b / 64 ^ j) mod 64 < 64) by (apply Z.mod_pos_bound; lia).
  rewrite (bits6 _ Hr) at 1.
  rewrite !digit_testbit by lia.
  replace (6 * j + 0) with (6 * j) by lia. reflexivity.
Qed.

Lemma digits64_seq (k : nat) :
  forall v, digits64 k v = map (fun j => (v / 64 ^ Z.of_nat j) mod 64) (seq 0 k).
Proof.
  induction k as [|k IH]; intros v; [reflexivity|].
  cbn [digits64]. rewrite IH. cbn [seq map].
  f_equal; [change (64 ^ Z.of_nat 0) with 1; rewrite Z.div_1_r; reflexivity|].
  rewrite <- seq_shift, map_map. apply map_ext. intros j.
  rewrite Nat2Z.inj_succ, Z.pow_succ_r by lia.
  rewrite Z.div_div by lia. reflexivity.
Qed.

Lemma base64_encode_digits (b : list byte) :
  base64_encode b =
  map lookup (digits64 (groups_of (len b)) (le_value b)).
Proof.
  unfold base64_encode, groups_of.
  rewrite encode_loop_digits by (left; split; reflexivity).
  change (2 ^ 0) with 1. do 2 f_equal.
  - f_equal. f_equal. lia.
  - lia.
Qed.

Lemma base64_encode_lsb (b : list byte) : base64_encode b = encode_lsb_first b.
Proof.
  rewrite base64_encode_digits, digits64_seq, map_map.
  unfold encode_lsb_first. apply map_ext. intros j.
  rewrite digit_group by lia. reflexivity.
Qed.

Lemma base64_encode_length (b : list byte) :
  len (base64_encode b) = BASE64_CHARS (len b).
Proof.
  rewrite base64_encode_lsb. unfold encode_lsb_first, len at 1.
  rewrite length_map, length_seq. unfold groups_of, BASE64_CHARS, DIV_ROUND_UP.
  pose proof (len_nonneg b). rewrite Z2Nat.id by divmod. divmod.
Qed.

(** ** Base64: what the decoder accepts *)

Lemma strchr_found (s : list byte) (c : byte) :
  forall i k, strchr s c i = Some k -> c <> x00 -> In c s.
Proof.
  induction s as [|x s IH]; intros i k H Hc; cbn [strchr] in H.
  - destruct (Byte.eqb c x00) eqn:E; [|discriminate].
    apply Byte.byte_dec_bl in E. contradiction.
  - destruct (Byte.eqb x c) eqn:E.
    + apply Byte.byte_dec_bl in E. left. exact E.
    + right. apply (IH _ _ H Hc).
Qed.

Lemma decode_loop_rejects (src : list byte) (c : byte) :
  In c src -> ~ In c lookup_table ->
  forall bits ac out, fst (decode_loop src bits ac out) = -2.
Proof.
  intros Hin Hbad. induction src as [|x rest IH]; intros bits ac out.
  - destruct Hin.
  - cbn [decode_loop].
    destruct (strchr lookup_table x 0) as [p|] eqn:Ep; [|reflexivity].
    destruct (Byte.eqb x x00) eqn:Ex; [reflexivity|].
    destruct Hin as [-> | Hin].
    + exfalso. apply Hbad. apply (strchr_found _ _ _ _ Ep).
      apply Byte.eqb_false. exact Ex.
    + destruct (8 <=? bits + 6); apply IH; exact Hin.
Qed.

(** A non-negative return value is the number of bytes stored, and that
    number is fixed by the number of characters read. *)
Lemma decode_loop_count (src : list byte) :
  forall bits ac out r bs,
    0 <= bits < 8 ->
    decode_loop src bits ac out = (r, bs) -> 0 <= r ->
    r = len bs /\ len bs = len out + (bits + 6 * len src) / 8.
Proof.
  induction src as [|c rest IH]; intros bits ac out r bs Hb H Hr.
  - cbn [decode_loop] in H. change (len (@nil byte)) with 0.
    destruct (ac =? 0); inversion H; subst; [|lia].
    split; [reflexivity | divmod].
  - cbn [decode_loop] in H. rewrite len_cons.
    pose proof (len_nonneg rest) as Hn.
    destruct (strchr lookup_table c 0) as [p|]; [|inversion H; subst; lia].
    destruct (Byte.eqb c x00); [inversion H; subst; lia|].
    destruct (8 <=? bits + 6) eqn:E.
    + apply Z.leb_le in E.
      apply IH in H; [|lia|exact Hr]. destruct H as [H1 H2].
      split; [exact H1|]. rewrite H2, len_app. change (len [_]) with 1. divmod.
    + apply Z.leb_gt in E.
      apply IH in H; [|lia|exact Hr]. destruct H as [H1 H2].
      split; [exact H1|]. rewrite H2. divmod.
Qed.

Lemma base64_decode_count (src : list byte) (r : Z) (bs : list byte) :
  base64_decode src = (r, bs) -> 0 <= r ->
  r = len bs /\ len bs = 6 * len src / 8.
Proof.
  intros H Hr. apply decode_loop_count in H; [|lia|exact Hr].
  destruct H as [H1 H2]. split; [exact H1|].
  rewrite H2. change (len (@nil byte)) with 0. reflexivity.
Qed.

Lemma lookup_in_table (v : Z) : 0 <= v < 64 -> In (lookup v) lookup_table.
Proof.
  intros Hv. destruct (strchr_lookup v Hv) as [H1 H2].
  apply (strchr_found _ _ _ _ H1). apply Byte.eqb_false. exact H2.
Qed.

Lemma group_lsb_range (b : list byte) (j : Z) : 0 <= group_lsb b j < 64.
Proof.
  unfold group_lsb.
  repeat match goal with
         | |- context [Z.b2z ?x] => destruct x; cbn [Z.b2z]
         end; lia.
Qed.

(** ** Policies *)

Lemma u8_inj (a b : byte) : u8 a = u8 b -> a = b.
Proof. intros H. rewrite <- (to_u8_u8 a), <- (to_u8_u8 b), H. reflexivity. Qed.

Lemma memcmp_eq_true (a b : list byte) (n : Z) :
  memcmp_eq a b n = true <-> firstn (Z.to_nat n) a = firstn (Z.to_nat n) b.
Proof.
  unfold memcmp_eq.
  destruct (list_eq_dec _ _ _) as [E|E]; split; intros H;
    try assumption; try reflexivity; try discriminate; contradiction.
Qed.

Lemma memcmp_eq_sym (a b : list byte) (n : Z) : memcmp_eq a b n = memcmp_eq b a n.
Proof.
  unfold memcmp_eq.
  destruct (list_eq_dec _ (firstn _ a) _) as [E|E];
    destruct (list_eq_dec _ (firstn _ b) _) as [F|F];
    try reflexivity; exfalso; apply F || apply E; symmetry; assumption.
Qed.

Lemma fscrypt_policies_equal_refl (a : fscrypt_policy) :
  fscrypt_policies_equal a a = true.
Proof.
  unfold fscrypt_policies_equal. rewrite Z.eqb_refl. cbn [negb].
  apply memcmp_eq_true. reflexivity.
Qed.

Lemma fscrypt_policies_equal_sym (a b : fscrypt_policy) :
  fscrypt_policies_equal a b = fscrypt_policies_equal b a.
Proof.
  unfold fscrypt_policies_equal. rewrite (Z.eqb_sym (u8 (version b))).
  destruct (u8 (version a) =? u8 (version b)) eqn:E; cbn [negb]; [|reflexivity].
  apply Z.eqb_eq in E. unfold fscrypt_policy_size, fscrypt_policy_size_v.
  rewrite E. apply memcmp_eq_sym.
Qed.

Lemma fscrypt_policies_equal_bytes (a b : fscrypt_policy) :
  version a = version b ->
  (fscrypt_policies_equal a b = true <->
   firstn (Z.to_nat (fscrypt_policy_size a)) (policy_bytes a)
   = firstn (Z.to_nat (fscrypt_policy_size a)) (policy_bytes b)).
Proof.
  intros Hv. unfold fscrypt_policies_equal. rewrite Hv, Z.eqb_refl. cbn [negb].
  apply memcmp_eq_true.
Qed.

(** For version-1 policies with an 8-byte descriptor, equality of the
    compared bytes is equality of the policies. *)
Lemma fscrypt_policies_equal_v1 (a b : fscrypt_policy) :
  policy_wf a -> policy_wf b -> u8 (version a) = FSCRYPT_POLICY_V1 ->
  (fscrypt_policies_equal a b = true <-> a = b).
Proof.
  intros Ha Hb Hv. split.
  - unfold fscrypt_policies_equal.
    destruct (u8 (version a) =? u8 (version b)) eqn:E; cbn [negb]; [|discriminate].
    apply Z.eqb_eq, u8_inj in E. rewrite memcmp_eq_true.
    unfold fscrypt_policy_size, fscrypt_policy_size_v. rewrite Hv.
    change (Z.to_nat (if FSCRYPT_POLICY_V1 =? FSCRYPT_POLICY_V1
                      then sizeof_policy_v1 else 0)) with 12%nat.
    destruct a as [va ca fa la da], b as [vb cb fb lb db].
    unfold policy_wf, FSCRYPT_KEY_DESCRIPTOR_SIZE in Ha, Hb.
    cbn [version master_key_descriptor] in Ha, Hb, E.
    unfold policy_bytes.
    cbn [version contents_encryption_mode
         filenames_encryption_mode flags master_key_descriptor].
    change (firstn 12 (va :: ca :: fa :: la :: da))
      with (va :: ca :: fa :: la :: firstn 8 da).
    change (firstn 12 (vb :: cb :: fb :: lb :: db))
      with (vb :: cb :: fb :: lb :: firstn 8 db).
    assert (Fa : firstn 8 da = da) by (rewrite <- Ha; apply firstn_all).
    assert (Fb : firstn 8 db = db) by (rewrite <- Hb; apply firstn_all).
    rewrite Fa, Fb. intros H. inversion H. subst. reflexivity.
  - intros ->. apply fscrypt_policies_equal_refl.
Qed.

Lemma memcpy_whole (dst src : list byte) (n : nat) :
  List.length dst = n -> List.length src = n -> memcpy dst src n = src.
Proof.
  intros Hd Hs. unfold memcpy. rewrite <- Hs at 1. rewrite firstn_all.
  rewrite <- Hd, skipn_all. apply app_nil_r.
Qed.

(** C9: [fscrypt_policies_equal] is reflexive and symmetric, is false
    whenever the two version bytes differ, and for equal versions is true
    exactly when the first [fscrypt_policy_size] bytes of the two policies,
    the size the version selects, are equal. *)
Theorem fscrypt_policies_equal_spec :
  (forall a, fscrypt_policies_equal a a = true)
  /\ (forall a b, fscrypt_policies_equal a b = fscrypt_policies_equal b a)
  /\ (forall a b, version a <> version b -> fscrypt_policies_equal a b = false)
  /\ (forall a b, version a = version b ->
        (fscrypt_policies_equal a b = true <->
         firstn (Z.to_nat (fscrypt_policy_size a)) (policy_bytes a)
         = firstn (Z.to_nat (fscrypt_policy_size a)) (policy_bytes b))).
Proof.
  split; [exact fscrypt_policies_equal_refl|].
  split; [exact fscrypt_policies_equal_sym|].
  split; [|exact fscrypt_policies_equal_bytes].
  intros a b Hv. unfold fscrypt_policies_equal.
  destruct (u8 (version a) =? u8 (version b)) eqn:E; [|reflexivity].
  apply Z.eqb_eq, u8_inj in E. contradiction.
Qed.

Lemma fscrypt_supported_policy_version (p : fscrypt_policy) (i : inode) :
  fscrypt_supported_policy p i = true -> u8 (version p) = FSCRYPT_POLICY_V1.
Proof.
  unfold fscrypt_supported_policy.
  destruct (u8 (version p) =? FSCRYPT_POLICY_V1) eqn:E; [|discriminate].
  intros _. apply Z.eqb_eq. exact E.
Qed.

(** C7: [fscrypt_supported_policy] is a function of the policy and of the
    inode's casefold attribute alone; it is true exactly when the version is
    [FSCRYPT_POLICY_V1], the mode pair is valid, no flag bit outside the
    padding mask and the direct-key bit is set, the direct-key bit itself is
    clear, and the inode is not casefolded, and false in every other case. *)
Theorem fscrypt_supported_policy_iff (p : fscrypt_policy) (i : inode) :
  fscrypt_supported_policy p i = true <->
  (u8 (version p) = FSCRYPT_POLICY_V1
   /\ fscrypt_valid_enc_modes (u8 (contents_encryption_mode p))
                              (u8 (filenames_encryption_mode p)) = true
   /\ Z.land (u8 (flags p))
             (Z.lnot (Z.lor FSCRYPT_POLICY_FLAGS_PAD_MASK
                            FSCRYPT_POLICY_FLAG_DIRECT_KEY)) = 0
   /\ Z.land (u8 (flags p)) FSCRYPT_POLICY_FLAG_DIRECT_KEY = 0
   /\ IS_CASEFOLDED i = false).
Proof.
  clear_collaborators.
  unfold fscrypt_supported_policy, fscrypt_supported_v1_policy.
  destruct (u8 (version p) =? FSCRYPT_POLICY_V1) eqn:Ev.
  2:{ apply Z.eqb_neq in Ev. split; [discriminate | tauto]. }
  apply Z.eqb_eq in Ev.
  destruct (fscrypt_valid_enc_modes _ _); cbn [negb];
    [|split; [discriminate | intros (_ & H & _); discriminate]].
  destruct (Z.land (u8 (flags p)) (Z.lnot _) =? 0) eqn:Ef; cbn [negb].
  2:{ apply Z.eqb_neq in Ef. split; [discriminate | tauto]. }
  apply Z.eqb_eq in Ef.
  destruct (Z.land (u8 (flags p)) FSCRYPT_POLICY_FLAG_DIRECT_KEY =? 0) eqn:Ed;
    cbn [negb].
  2:{ apply Z.eqb_neq in Ed. split; [discriminate | tauto]. }
  apply Z.eqb_eq in Ed.
  destruct (IS_CASEFOLDED i); split; try discriminate; try tauto.
  intros (_ & _ & _ & _ & H). discriminate.
Qed.

(** C8: for a supported policy [p], the policy read back from the context
    made from [p] is [p] itself, whatever bytes the random source put in
    the nonce, which only the context holds. *)
Theorem fscrypt_policy_context_roundtrip (p : fscrypt_policy) (i : inode) :
  policy_wf p ->
  fscrypt_supported_policy p i = true ->
  fscrypt_policy_from_context (fst (fscrypt_new_context_from_policy p))
                              (snd (fscrypt_new_context_from_policy p))
  = Ok p.
Proof.
  intros Hwf Hs. apply fscrypt_supported_policy_version in Hs. rename Hs into Hv.
  unfold fscrypt_policy_from_context, fscrypt_new_context_from_policy.
  cbn [fst snd ctx_version ctx_contents_encryption_mode
       ctx_filenames_encryption_mode ctx_flags ctx_master_key_descriptor].
  rewrite u8_to_u8. change (1 mod 256 =? 1) with true. cbv iota.
  rewrite <- Hv, to_u8_u8.
  unfold policy_wf in Hwf.
  rewrite (memcpy_whole _ (master_key_descriptor p)) by (exact Hwf || reflexivity).
  rewrite memcpy_whole by (exact Hwf || reflexivity).
  destruct p; reflexivity.
Qed.

(** ** Encrypted name sizes *)

Lemma testbit_split (r q k i : Z) :
  0 <= k -> 0 <= r < 2 ^ k -> 0 <= i ->
  Z.testbit (r + 2 ^ k * q) i
  = if i <? k then Z.testbit r i else Z.testbit q (i - k).
Proof.
  intros Hk Hr Hi. destruct (i <? k) eqn:E.
  - apply Z.ltb_lt in E.
    rewrite <- (Z.mod_pow2_bits_low (r + 2 ^ k * q) k i) by lia.
    f_equal. replace (r + 2 ^ k * q) with (r + q * 2 ^ k) by lia.
    rewrite Z.mod_add by lia. apply Z.mod_small. exact Hr.
  - apply Z.ltb_ge in E.
    replace i with (i - k + k) at 1 by lia.
    rewrite <- Z.div_pow2_bits by lia.
    f_equal. replace (r + 2 ^ k * q) with (r + q * 2 ^ k) by lia.
    rewrite Z.div_add by lia. rewrite (Z.div_small r) by exact Hr. lia.
Qed.

(** Or-ing with [2^k - 1] fills the low [k] bits. *)
Lemma lor_ones (a k : Z) :
  0 <= a -> 0 <= k ->
  Z.lor a (Z.ones k) = Z.ones k + 2 ^ k * (a / 2 ^ k).
Proof.
  intros Ha Hk.
  assert (Hp : 0 < 2 ^ k) by (apply Z.pow_pos_nonneg; lia).
  assert (Ho : 0 <= Z.ones k < 2 ^ k) by (rewrite Z.ones_equiv; lia).
  apply Z.bits_inj'. intros i Hi.
  rewrite Z.lor_spec, testbit_split by lia.
  destruct (i <? k) eqn:E.
  - apply Z.ltb_lt in E. rewrite Z.ones_spec_low by lia. apply orb_true_r.
  - apply Z.ltb_ge in E. rewrite Z.ones_spec_high by lia. rewrite orb_false_r.
    replace i with (i - k + k) at 1 by lia.
    rewrite <- Z.div_pow2_bits by lia. reflexivity.
Qed.

(** Away from the top of the [u32] range, [round_up] is the least multiple
    of a power of two that is not below [x]. *)
Lemma round_up_pow2 (x k : Z) :
  0 <= k < 32 -> 1 <= x -> x + 2 ^ k <= 2 ^ 32 ->
  round_up x (2 ^ k) = 2 ^ k * ((x + 2 ^ k - 1) / 2 ^ k).
Proof.
  intros Hk Hx Hmax.
  assert (Hp : 0 < 2 ^ k) by (apply Z.pow_pos_nonneg; lia).
  unfold round_up, wrap32.
  rewrite (Z.mod_small (x - 1)) by lia.
  rewrite (Z.mod_small (2 ^ k - 1)) by lia.
  replace (2 ^ k - 1) with (Z.ones k) by (rewrite Z.ones_equiv; lia).
  rewrite lor_ones by lia. rewrite Z.ones_equiv.
  assert (E : (x + 2 ^ k - 1) / 2 ^ k = (x - 1) / 2 ^ k + 1).
  { replace (x + 2 ^ k - 1) with (x - 1 + 1 * 2 ^ k) by lia.
    rewrite Z.div_add by lia. reflexivity. }
  rewrite E.
  pose proof (Z.mul_div_le (x - 1) (2 ^ k) Hp) as Hle.
  assert (Hq : 0 <= 2 ^ k * ((x - 1) / 2 ^ k))
    by (apply Z.mul_nonneg_nonneg; [lia | apply Z.div_pos; lia]).
  set (q := 2 ^ k * ((x - 1) / 2 ^ k)) in *.
  replace (2 ^ k * ((x - 1) / 2 ^ k + 1)) with (q + 2 ^ k) by (unfold q; lia).
  rewrite Z.mod_small; unfold Z.pred; lia.
Qed.

Lemma padding_cases (f : byte) :
  exists k, 2 <= k <= 5
            /\ Z.shiftl 4 (Z.land (u8 f) FS_POLICY_FLAGS_PAD_MASK) = 2 ^ k.
Proof.
  unfold FS_POLICY_FLAGS_PAD_MASK, FSCRYPT_POLICY_FLAGS_PAD_MASK.
  change 3 with (Z.ones 2). rewrite Z.land_ones by lia.
  pose proof (Z.mod_pos_bound (u8 f) (2 ^ 2) eq_refl) as Hm.
  exists (u8 f mod 2 ^ 2 + 2). split; [lia|].
  rewrite Z.shiftl_mul_pow2 by lia.
  rewrite Z.pow_add_r by lia. change (2 ^ 2) with 4. lia.
Qed.

Lemma encrypted_size_value (ci : fscrypt_info) (l m : Z) :
  0 <= l <= m -> m <= 2 ^ 32 - 32 ->
  exists k, 2 <= k <= 5
    /\ fname_padding ci = 2 ^ k
    /\ fscrypt_fname_encrypted_size ci l m
       = Some (Z.min (2 ^ k * ((Z.max l FS_CRYPTO_BLOCK_SIZE + 2 ^ k - 1) / 2 ^ k)) m).
Proof.
  intros Hl Hm. destruct (padding_cases (ci_flags ci)) as (k & Hk & Hp).
  exists k. split; [exact Hk|]. split; [exact Hp|].
  unfold fscrypt_fname_encrypted_size, fname_padding. rewrite Hp.
  destruct (l >? m) eqn:E; [apply Z.gtb_lt in E; lia|].
  assert (H32 : 2 ^ k <= 32).
  { change 32 with (2 ^ 5). apply Z.pow_le_mono_r; lia. }
  unfold FS_CRYPTO_BLOCK_SIZE. change (2 ^ 32) with 4294967296 in *.
  rewrite round_up_pow2; [reflexivity | lia | lia |].
  change (2 ^ 32) with 4294967296. lia.
Qed.

Lemma pow2_divides_16 (k : Z) : 2 <= k <= 4 -> 16 mod 2 ^ k = 0.
Proof.
  intros Hk.
  assert (k = 2 \/ k = 3 \/ k = 4) as [-> | [-> | ->]] by lia; reflexivity.
Qed.

Lemma encrypted_size_none (ci : fscrypt_info) (l m : Z) :
  fscrypt_fname_encrypted_size ci l m = None <-> l > m.
Proof.
  unfold fscrypt_fname_encrypted_size.
  destruct (l >? m) eqn:E.
  - apply Z.gtb_lt in E. split; [lia | reflexivity].
  - rewrite Z.gtb_ltb in E. apply Z.ltb_ge in E. split; [discriminate | lia].
Qed.

Lemma encrypted_size_some (ci : fscrypt_info) (l m r : Z) :
  fscrypt_fname_encrypted_size ci l m = Some r -> l <= m /\ r <= m.
Proof.
  unfold fscrypt_fname_encrypted_size.
  destruct (l >? m) eqn:E; [discriminate|].
  rewrite Z.gtb_ltb in E. apply Z.ltb_ge in E. intros H. inversion H. lia.
Qed.

(** C5 (amended): the padding granularity is 4, 8, 16 or 32;
    [fscrypt_fname_encrypted_size] fails exactly when the raw length
    exceeds the maximum; its result never exceeds the maximum; and for
    maxima up to [2^32 - 32], where the 32-bit rounding cannot wrap, the
    result is non-decreasing in the raw length and is either the maximum
    itself (the rounded length was clamped) or a multiple of the
    granularity that is at least one cipher block, the latter whenever the
    raw length rounded up fits below the maximum. *)
Theorem fscrypt_fname_encrypted_size_spec (ci : fscrypt_info) (max_len : Z) :
  (fname_padding ci = 4 \/ fname_padding ci = 8
   \/ fname_padding ci = 16 \/ fname_padding ci = 32)
  /\ (forall l, fscrypt_fname_encrypted_size ci l max_len = None <-> l > max_len)
  /\ (forall l r, fscrypt_fname_encrypted_size ci l max_len = Some r ->
                  r <= max_len)
  /\ (max_len <= 2 ^ 32 - 32 ->
      forall l r, 0 <= l ->
        fscrypt_fname_encrypted_size ci l max_len = Some r ->
        (r = max_len \/ (r mod fname_padding ci = 0 /\ FS_CRYPTO_BLOCK_SIZE <= r))
        /\ (Z.max l FS_CRYPTO_BLOCK_SIZE + fname_padding ci - 1 <= max_len ->
            r mod fname_padding ci = 0 /\ FS_CRYPTO_BLOCK_SIZE <= r /\ l <= r))
  /\ (max_len <= 2 ^ 32 - 32 ->
      forall l1 l2 r1 r2, 0 <= l1 <= l2 ->
        fscrypt_fname_encrypted_size ci l1 max_len = Some r1 ->
        fscrypt_fname_encrypted_size ci l2 max_len = Some r2 ->
        r1 <= r2).
Proof.
  clear_collaborators.
  split.
  { unfold fname_padding. destruct (padding_cases (ci_flags ci)) as (k & Hk & ->).
    assert (k = 2 \/ k = 3 \/ k = 4 \/ k = 5) as [-> | [-> | [-> | ->]]] by lia;
      cbv; tauto. }
  split; [intros l; apply encrypted_size_none|].
  split; [intros l r H; apply (encrypted_size_some _ _ _ _ H)|].
  split.
  - intros Hm l r Hl H.
    destruct (encrypted_size_some _ _ _ _ H) as [Hlm _].
    destruct (encrypted_size_value ci l max_len) as (k & Hk & Hp & Hv); [lia | lia |].
    rewrite Hv in H. inversion H as [Hr]. clear H. rewrite Hp.
    assert (Hpos : 0 < 2 ^ k) by (apply Z.pow_pos_nonneg; lia).
    assert (H32 : 2 ^ k <= 32)
      by (change 32 with (2 ^ 5); apply Z.pow_le_mono_r; lia).
    unfold FS_CRYPTO_BLOCK_SIZE in *.
    set (x := Z.max l 16) in *.
    assert (Hx : 16 <= x /\ l <= x) by (unfold x; lia).
    pose proof (Z.mul_div_le (x + 2 ^ k - 1) (2 ^ k) Hpos) as Hle.
    pose proof (Z.mul_succ_div_gt (x + 2 ^ k - 1) (2 ^ k) Hpos) as Hgt.
    set (q := (x + 2 ^ k - 1) / 2 ^ k) in *.
    assert (Hmod : (2 ^ k * q) mod 2 ^ k = 0)
      by (rewrite Z.mul_comm; apply Z.mod_mul; lia).
    split.
    + destruct (Z_le_gt_dec (2 ^ k * q) max_len) as [Hc|Hc].
      * right. rewrite Z.min_l by lia. split; [exact Hmod | lia].
      * left. rewrite Z.min_r by lia. reflexivity.
    + intros Hfit. rewrite Z.min_l by lia. split; [exact Hmod | lia].
  - intros Hm l1 l2 r1 r2 Hl H1 H2.
    destruct (encrypted_size_some _ _ _ _ H2) as [Hlm _].
    destruct (encrypted_size_value ci l1 max_len) as (k & Hk & Hp & Hv1); [lia | lia |].
    destruct (encrypted_size_value ci l2 max_len) as (k' & Hk' & Hp' & Hv2); [lia | lia |].
    assert (k' = k).
    { rewrite Hp in Hp'. apply Z.pow_inj_r in Hp'; lia. }
    subst k'. rewrite Hv1 in H1. rewrite Hv2 in H2.
    inversion H1. inversion H2. clear H1 H2.
    assert (Hpos : 0 < 2 ^ k) by (apply Z.pow_pos_nonneg; lia).
    apply Z.min_le_compat_r. apply Z.mul_le_mono_nonneg_l; [lia|].
    apply Z.div_le_mono; lia.
Qed.

(** ** Base64: the claims *)

(** C6 (amended): [base64_encode] emits one character of the 64-character
    table [A-Z a-z 0-9 + ,] per group of six input bits, the bits being
    taken least-significant-bit-first (a byte is consumed from its low
    bit and the first bit of a group is the low bit of the table index);
    a last partial group is emitted, filled with zero bits, when the bit
    count is not a multiple of six; and no padding character is appended:
    every character is a table entry and none is [=]. *)
Theorem base64_encode_lsb_first (b : list byte) :
  base64_encode b = encode_lsb_first b
  /\ len (base64_encode b) = Z.of_nat (groups_of (len b))
  /\ 6 * (len (base64_encode b) - 1) < 8 * len b <= 6 * len (base64_encode b)
  /\ Forall (fun c => In c lookup_table) (base64_encode b)
  /\ ~ In "="%byte (base64_encode b).
Proof.
  clear_collaborators.
  pose proof (len_nonneg b) as Hn.
  assert (Hlen : len (encode_lsb_first b) = Z.of_nat (groups_of (len b))).
  { unfold encode_lsb_first, len at 1. rewrite length_map, length_seq. reflexivity. }
  assert (Hall : Forall (fun c => In c lookup_table) (encode_lsb_first b)).
  { unfold encode_lsb_first. apply Forall_forall. intros c Hc.
    apply in_map_iff in Hc. destruct Hc as (j & <- & _).
    apply lookup_in_table, group_lsb_range. }
  rewrite base64_encode_lsb.
  split; [reflexivity|]. split; [exact Hlen|].
  split.
  { rewrite Hlen. unfold groups_of. rewrite Z2Nat.id by divmod. divmod. }
  split; [exact Hall|].
  intros Hin. rewrite Forall_forall in Hall. apply Hall in Hin.
  revert Hin. vm_compute. intuition discriminate.
Qed.

(** C10: decoding the encoding of any byte sequence succeeds and gives the
    sequence back; the encoding of [n] bytes has [ceil(4 * n / 3)]
    characters; and the decoder rejects every input that holds a character
    outside the 64-character table. *)
Theorem base64_decode_encode (b : list byte) :
  base64_decode (base64_encode b) = (len b, b)
  /\ len (base64_encode b) = BASE64_CHARS (len b)
  /\ 3 * (len (base64_encode b) - 1) < 4 * len b <= 3 * len (base64_encode b)
  /\ (forall (s : list byte) (c : byte),
         In c s -> ~ In c lookup_table -> fst (base64_decode s) = -2).
Proof.
  split; [apply base64_roundtrip|].
  split; [apply base64_encode_length|].
  split.
  - rewrite base64_encode_length. unfold BASE64_CHARS, DIV_ROUND_UP.
    pose proof (len_nonneg b). divmod.
  - intros s c Hin Hbad. unfold base64_decode.
    apply (decode_loop_rejects s c Hin Hbad).
Qed.

(** ** Reading and setting the policy of an inode *)

(** The [Err] results of [fscrypt_get_policy] stand for non-zero return
    values, so [Ok] is exactly the C return value [0]. *)
Lemma fscrypt_get_policy_err (i : inode) (e : Z) :
  fscrypt_get_policy i = Err e -> e <> 0.
Proof.
  unfold fscrypt_get_policy, fscrypt_policy_from_context.
  destruct (i_crypt_info i); [discriminate|].
  destruct (IS_ENCRYPTED i); cbn [negb];
    [|intros H; injection H as <-; unfold ENODATA; lia].
  destruct (get_context s_cop i) as [ret ctx].
  destruct (ret <? 0) eqn:E.
  - apply Z.ltb_lt in E.
    destruct (ret =? - ERANGE); intros H; injection H as <-;
      [unfold EINVAL; lia | lia].
  - destruct (u8 (ctx_version ctx) =? 1); intros H; [discriminate|].
    injection H as <-. unfold EINVAL; lia.
Qed.

Lemma policy_bytes_length (p : fscrypt_policy) :
  policy_wf p -> List.length (policy_bytes p) = 12%nat.
Proof. unfold policy_wf, policy_bytes. cbn [List.length]. intros ->. reflexivity. Qed.

Lemma policy_of_bytes_bytes (p : fscrypt_policy) :
  policy_wf p -> policy_of_bytes (policy_bytes p) = p.
Proof.
  intros Hwf. destruct p as [v c f l d]. unfold policy_wf in Hwf. cbn in Hwf.
  unfold policy_of_bytes, policy_bytes. cbn [nth skipn version
    contents_encryption_mode filenames_encryption_mode flags master_key_descriptor].
  rewrite <- Hwf, firstn_all. reflexivity.
Qed.

Lemma policy_bytes_of_bytes (b : list byte) :
  List.length b = 12%nat -> policy_bytes (policy_of_bytes b) = b.
Proof.
  intros H.
  do 12 (destruct b as [|? b]; [discriminate|]).
  destruct b; [reflexivity | discriminate].
Qed.

Lemma policy_of_bytes_wf (b : list byte) :
  List.length b = 12%nat -> policy_wf (policy_of_bytes b).
Proof.
  intros H. unfold policy_wf, policy_of_bytes. cbn [master_key_descriptor].
  rewrite length_firstn, length_skipn, H. reflexivity.
Qed.

(** C1 (amended): on an inode that already carries a policy, with the
    caller passing the ownership and write-access checks,
    [fscrypt_ioctl_set_policy] returns 0 and leaves the inode as it is when
    the user buffer holds a policy byte-identical to the existing one; it
    returns [-EEXIST] when the buffer holds a version-1 policy that differs
    from the existing one. *)
Theorem fscrypt_ioctl_set_policy_existing
        (filp : file) (arg : list byte) (existing : fscrypt_policy) :
  fscrypt_get_policy (f_inode filp) = Ok existing ->
  policy_wf existing ->
  u8 (version existing) = FSCRYPT_POLICY_V1 ->
  inode_owner_or_capable filp = true ->
  mnt_want_write_file filp = 0 ->
  (firstn (Z.to_nat sizeof_policy_v1) arg = policy_bytes existing ->
   fscrypt_ioctl_set_policy filp arg = (0, f_inode filp))
  /\ (sizeof_policy_v1 <= len arg ->
      u8 (nth 0 arg x00) = FSCRYPT_POLICY_V1 ->
      firstn (Z.to_nat sizeof_policy_v1) arg <> policy_bytes existing ->
      fscrypt_ioctl_set_policy filp arg = (- EEXIST, f_inode filp)).
Proof.
  intros Hget Hwf Hv Hown Hmnt.
  change (Z.to_nat sizeof_policy_v1) with 12%nat.
  assert (Hcommon :
    forall v rest,
      arg = v :: rest -> sizeof_policy_v1 <= len arg -> u8 v = FSCRYPT_POLICY_V1 ->
      fscrypt_ioctl_set_policy filp arg
      = if negb (fscrypt_policies_equal (policy_of_bytes (firstn 12 arg)) existing)
        then (- EEXIST, f_inode filp) else (0, f_inode filp)).
  { intros v rest -> Hlen Hv0. unfold fscrypt_ioctl_set_policy.
    unfold fscrypt_policy_size_v. rewrite Hv0.
    change (FSCRYPT_POLICY_V1 =? FSCRYPT_POLICY_V1) with true. cbv iota.
    change (sizeof_policy_v1 <=? 0) with false. cbv iota.
    destruct (len (v :: rest) <? sizeof_policy_v1) eqn:E;
      [apply Z.ltb_lt in E; lia|].
    rewrite Hown, Hmnt. cbn [negb]. change (0 =? 0) with true. cbn [negb].
    rewrite Hget. change (Z.to_nat sizeof_policy_v1) with 12%nat.
    reflexivity. }
  split.
  - intros Hsame.
    assert (Hl : List.length (firstn 12 arg) = 12%nat)
      by (rewrite Hsame; apply policy_bytes_length, Hwf).
    rewrite length_firstn in Hl.
    destruct arg as [|v rest]; [discriminate|].
    assert (Hv0 : v = version existing) by (inversion Hsame; reflexivity).
    rewrite (Hcommon v rest eq_refl).
    + rewrite Hsame, policy_of_bytes_bytes by exact Hwf.
      rewrite fscrypt_policies_equal_refl. reflexivity.
    + unfold len, sizeof_policy_v1, FSCRYPT_KEY_DESCRIPTOR_SIZE. lia.
    + rewrite Hv0. exact Hv.
  - intros Hlen Hv0 Hdiff.
    destruct arg as [|v rest]; [cbn in Hlen; unfold sizeof_policy_v1 in Hlen; cbn in Hlen; lia|].
    cbn [nth] in Hv0.
    rewrite (Hcommon v rest eq_refl Hlen Hv0).
    assert (Hl : List.length (firstn 12 (v :: rest)) = 12%nat).
    { rewrite length_firstn. unfold len, sizeof_policy_v1,
        FSCRYPT_KEY_DESCRIPTOR_SIZE in Hlen. lia. }
    destruct (fscrypt_policies_equal (policy_of_bytes (firstn 12 (v :: rest)))
                                     existing) eqn:E; [|reflexivity].
    exfalso. apply Hdiff.
    apply fscrypt_policies_equal_v1 in E.
    + rewrite <- E. symmetry. apply policy_bytes_of_bytes, Hl.
    + apply policy_of_bytes_wf, Hl.
    + exact Hwf.
    + exact Hv0.
Qed.


(** ** Names presented and looked up without the key *)

Lemma u32_bytes_length (v : Z) : List.length (u32_bytes v) = 4%nat.
Proof. reflexivity. Qed.

Lemma u32_of_bytes_bytes (v : Z) :
  0 <= v < 2 ^ 32 -> u32_of_bytes (u32_bytes v) = v.
Proof.
  intros Hv. unfold u32_of_bytes, u32_bytes. cbn [nth].
  rewrite !u8_to_u8, !Z.shiftr_div_pow2, !Z.shiftl_mul_pow2 by lia.
  change (2 ^ 8) with 256. change (2 ^ 16) with 65536.
  change (2 ^ 24) with 16777216. change (2 ^ 32) with 4294967296 in Hv.
  divmod.
Qed.

Lemma firstn_exact {A} (l r : list A) (n : nat) :
  List.length l = n -> firstn n (l ++ r) = l.
Proof.
  intros <-. rewrite firstn_app, firstn_all, Nat.sub_diag.
  cbn [firstn]. apply app_nil_r.
Qed.

Lemma dot_dotdot_short (s : list byte) :
  fscrypt_is_dot_dotdot s = true -> len s <= 2.
Proof.
  unfold fscrypt_is_dot_dotdot.
  destruct (len s =? 1) eqn:E1; [apply Z.eqb_eq in E1; lia|].
  destruct (len s =? 2) eqn:E2; [apply Z.eqb_eq in E2; lia|].
  cbn [andb]. discriminate.
Qed.

(** C3: without the key, for a ciphertext name of at least one cipher
    block, [fscrypt_fname_disk_to_usr] returns a name whose base64 decoding
    is, for at most 149 bytes, the 8 bytes of the directory-hash pair
    followed by the ciphertext and nothing more, and, for more than 149
    bytes (the digest being computed), the 189-byte record made of the
    hash pair, the first 149 ciphertext bytes and the 32-byte digest of the
    remaining bytes: what [crypto_shash_digest] stores for exactly those
    bytes, the shared SHA-256 handle being there.  The pair stored is
    [(hash, minor_hash)], or [(0, 0)] when [hash] is 0. *)
Theorem fscrypt_fname_disk_to_usr_nokey
        (i : inode) (hash minor_hash : Z) (iname : list byte) :
  FS_CRYPTO_BLOCK_SIZE <= len iname ->
  i_crypt_info i = None ->
  (len iname <= sizeof_nokey_bytes ->
   exists oname,
     fscrypt_fname_disk_to_usr i hash minor_hash iname = Ok oname
     /\ base64_decode oname
        = (offsetof_bytes (len iname),
           (if hash =? 0 then u32_bytes 0 ++ u32_bytes 0
            else u32_bytes hash ++ u32_bytes minor_hash) ++ iname))
  /\ (sizeof_nokey_bytes < len iname ->
      forall digest,
        sha256_tfm_err = 0 ->
        crypto_shash_digest (skipn (Z.to_nat sizeof_nokey_bytes) iname)
        = (0, digest) ->
        len digest = sizeof_nokey_sha256 ->
        exists oname,
          fscrypt_fname_disk_to_usr i hash minor_hash iname = Ok oname
          /\ base64_decode oname
             = (FSCRYPT_NOKEY_NAME_MAX,
                (if hash =? 0 then u32_bytes 0 ++ u32_bytes 0
                 else u32_bytes hash ++ u32_bytes minor_hash)
                ++ firstn (Z.to_nat sizeof_nokey_bytes) iname ++ digest)).
Proof.
  intros Hblock Hkey.
  assert (Hdot : fscrypt_is_dot_dotdot iname = false).
  { destruct (fscrypt_is_dot_dotdot iname) eqn:E; [|reflexivity].
    apply dot_dotdot_short in E. unfold FS_CRYPTO_BLOCK_SIZE in Hblock. lia. }
  assert (Hlt : (len iname <? FS_CRYPTO_BLOCK_SIZE) = false)
    by (apply Z.ltb_ge; exact Hblock).
  unfold fscrypt_fname_disk_to_usr. rewrite Hdot, Hlt, Hkey.
  split.
  - intros Hshort.
    assert (E : (len iname <=? sizeof_nokey_bytes) = true)
      by (apply Z.leb_le; exact Hshort).
    destruct (hash =? 0); cbn [negb]; rewrite E;
      eexists; (split; [reflexivity|]);
      rewrite base64_roundtrip; unfold nokey_name_bytes;
      cbn [dirhash0 dirhash1 nk_bytes nk_sha256];
      rewrite firstn_all, app_nil_r, !app_assoc;
      (rewrite firstn_all2
         by (rewrite !length_app, !u32_bytes_length;
             unfold offsetof_bytes, len; lia));
      (f_equal; rewrite !len_app; unfold len, offsetof_bytes;
       rewrite !u32_bytes_length; lia).
  - intros Hlong digest Htfm Hdig Hd.
    assert (Hsha : fscrypt_do_sha256
                     (skipn (Z.to_nat sizeof_nokey_bytes) iname)
                   = (0, digest)).
    { unfold fscrypt_do_sha256. rewrite Htfm. exact Hdig. }
    assert (E : (len iname <=? sizeof_nokey_bytes) = false)
      by (apply Z.leb_gt; exact Hlong).
    assert (Hpre : List.length (firstn (Z.to_nat sizeof_nokey_bytes) iname)
                   = 149%nat).
    { rewrite length_firstn. unfold len, sizeof_nokey_bytes in Hlong. 
      unfold sizeof_nokey_bytes. lia. }
    assert (Hdl : List.length digest = 32%nat)
      by (unfold len, sizeof_nokey_sha256 in Hd; lia).
    destruct (hash =? 0); cbn [negb]; rewrite E, Hsha;
      change (negb (0 =? 0)) with false; cbv iota;
      eexists; (split; [reflexivity|]);
      rewrite base64_roundtrip; unfold nokey_name_bytes;
      cbn [dirhash0 dirhash1 nk_bytes nk_sha256];
      rewrite !app_assoc;
      (rewrite firstn_all2
         by (rewrite !length_app, !u32_bytes_length, Hpre, Hdl;
             cbv; lia));
      (f_equal; rewrite !len_app; unfold len;
       rewrite !u32_bytes_length, Hpre, Hdl; reflexivity).
Qed.

(** C4: [fscrypt_setup_filename] on an encrypted directory, for a name
    other than [.] and [..], once the encryption info is resolved and no key
    is there: with [lookup == 0] it fails with [-ENOKEY]; with [lookup != 0]
    (the buffer allocation succeeding) it decodes the user name and fails
    with [-ENOENT], which is not [-EINVAL], unless the decoded length is
    between 9 and 157 (the hash pair and 1 to 149 name bytes) or is 189
    (the digested record); in the first case it succeeds and the disk name
    is the decoded bytes after the hash pair, in the second no disk name is
    set and the call succeeds when the name has at most [BASE64_CHARS(189)]
    characters. *)
Theorem fscrypt_setup_filename_nokey
        (dir dir1 : inode) (iname : list byte) (lookup : Z) :
  IS_ENCRYPTED dir = true ->
  fscrypt_is_dot_dotdot iname = false ->
  fscrypt_get_encryption_info dir = (0, dir1) ->
  i_crypt_info dir1 = None ->
  (lookup = 0 -> fst (fscrypt_setup_filename dir iname lookup) = - ENOKEY)
  /\ (lookup <> 0 -> kmalloc FSCRYPT_NOKEY_NAME_MAX = true ->
      forall ret buf, base64_decode iname = (ret, buf) ->
        (~ (offsetof_bytes 1 <= ret <= offsetof_sha256
            \/ ret = FSCRYPT_NOKEY_NAME_MAX) ->
         fst (fscrypt_setup_filename dir iname lookup) = - ENOENT
         /\ - ENOENT <> - EINVAL)
        /\ (offsetof_bytes 1 <= ret <= offsetof_sha256 ->
            fst (fscrypt_setup_filename dir iname lookup) = 0
            /\ disk_name (snd (fscrypt_setup_filename dir iname lookup))
               = {| name := Some (skipn 8 buf); str_len := ret - 8 |}
            /\ len (skipn 8 buf) = ret - 8
            /\ 1 <= ret - 8 <= sizeof_nokey_bytes)
        /\ (ret = FSCRYPT_NOKEY_NAME_MAX ->
            disk_name (snd (fscrypt_setup_filename dir iname lookup)) = null_str
            /\ (len iname <= BASE64_CHARS FSCRYPT_NOKEY_NAME_MAX ->
                fst (fscrypt_setup_filename dir iname lookup) = 0))).
Proof.
  intros Henc Hdot Hinfo Hkey.
  unfold fscrypt_setup_filename.
  rewrite Henc, Hdot, Hinfo, Hkey. cbn [negb orb].
  change (negb (0 =? 0)) with false. cbv iota.
  split; [intros ->; reflexivity|].
  intros Hl Hk ret buf Hdec.
  apply Z.eqb_neq in Hl. rewrite Hl, Hk, Hdec. cbn [negb].
  change (offsetof_bytes 1) with 9. change offsetof_sha256 with 157.
  change FSCRYPT_NOKEY_NAME_MAX with 189. change (BASE64_CHARS 189) with 252.
  change (offsetof_bytes 0) with 8. change sizeof_nokey_bytes with 149.
  pose proof (len_nonneg iname) as Hn.
  split; [|split].
  - intros Hbad. split; [|unfold ENOENT, EINVAL; lia].
    destruct (len iname >? 252); [reflexivity|].
    destruct (ret <? 9) eqn:E1; [reflexivity|]. apply Z.ltb_ge in E1.
    destruct (ret >? 157) eqn:E2;
      [|rewrite Z.gtb_ltb in E2; apply Z.ltb_ge in E2; lia].
    destruct (ret =? 189) eqn:E3; [apply Z.eqb_eq in E3; lia|]. reflexivity.
  - intros Hr.
    destruct (base64_decode_count iname ret buf Hdec) as [Hrl Hcnt]; [lia|].
    assert (E0 : (len iname >? 252) = false).
    { rewrite Z.gtb_ltb. apply Z.ltb_ge. rewrite <- Hrl in Hcnt.
      clear - Hcnt Hr Hn. divmod. }
    assert (E1 : (ret <? 9) = false) by (apply Z.ltb_ge; lia).
    assert (E2 : (ret >? 157) = false)
      by (rewrite Z.gtb_ltb; apply Z.ltb_ge; lia).
    assert (E3 : (ret =? 189) = false) by (apply Z.eqb_neq; lia).
    rewrite E0, E1, E2, E3. cbn [orb andb negb fst snd disk_name].
    split; [reflexivity|]. split; [reflexivity|].
    split; [|lia].
    unfold len in *. rewrite length_skipn. lia.
  - intros ->.
    change (189 <? 9) with false. change (189 >? 157) with true.
    change (189 =? 189) with true. cbn [orb andb negb].
    split.
    + destruct (len iname >? 252); reflexivity.
    + intros Hle.
      assert (E0 : (len iname >? 252) = false)
        by (rewrite Z.gtb_ltb; apply Z.ltb_ge; lia).
      rewrite E0. reflexivity.
Qed.


(** * Further properties *)

(** ** Setting and reading back a policy *)

(** Past the copy from user space and the access checks,
    [fscrypt_ioctl_set_policy] is a function of the policy in the buffer
    and of what [fscrypt_get_policy] finds. *)
Lemma ioctl_set_policy_checked (filp : file) (arg : list byte) :
  sizeof_policy_v1 <= len arg ->
  u8 (nth 0 arg x00) = FSCRYPT_POLICY_V1 ->
  inode_owner_or_capable filp = true ->
  mnt_want_write_file filp = 0 ->
  fscrypt_ioctl_set_policy filp arg =
  match fscrypt_get_policy (f_inode filp) with
  | Err ret =>
      if ret =? - ENODATA then
        if negb (S_ISDIR (i_mode (f_inode filp))) then (- ENOTDIR, f_inode filp)
        else if IS_DEADDIR (f_inode filp) then (- ENOENT, f_inode filp)
        else if negb (empty_dir s_cop (f_inode filp))
             then (- ENOTEMPTY, f_inode filp)
        else set_encryption_policy (f_inode filp)
               (policy_of_bytes (firstn (Z.to_nat sizeof_policy_v1) arg))
      else if ret =? - EINVAL then (- EEXIST, f_inode filp)
      else (ret, f_inode filp)
  | Ok existing_policy =>
      if negb (fscrypt_policies_equal
                 (policy_of_bytes (firstn (Z.to_nat sizeof_policy_v1) arg))
                 existing_policy)
      then (- EEXIST, f_inode filp)
      else (0, f_inode filp)
  end.
Proof.
  intros Hlen Hv Hown Hmnt.
  destruct arg as [|v rest];
    [unfold len, sizeof_policy_v1 in Hlen; cbn in Hlen; lia|].
  cbn [nth] in Hv. unfold fscrypt_ioctl_set_policy.
  unfold fscrypt_policy_size_v. rewrite Hv.
  change (FSCRYPT_POLICY_V1 =? FSCRYPT_POLICY_V1) with true. cbv iota.
  change (sizeof_policy_v1 <=? 0) with false. cbv iota.
  destruct (len (v :: rest) <? sizeof_policy_v1) eqn:E;
    [apply Z.ltb_lt in E; lia|].
  rewrite Hown, Hmnt. cbn [negb]. change (0 =? 0) with true. cbn [negb].
  reflexivity.
Qed.


(** The context made from a version-1 policy reads back as that policy. *)
Lemma policy_from_new_context (p : fscrypt_policy) (size : Z) :
  policy_wf p -> u8 (version p) = FSCRYPT_POLICY_V1 ->
  fscrypt_policy_from_context (fst (fscrypt_new_context_from_policy p)) size
  = Ok p.
Proof.
  intros Hwf Hv.
  unfold fscrypt_policy_from_context, fscrypt_new_context_from_policy.
  cbn [fst ctx_version ctx_contents_encryption_mode
       ctx_filenames_encryption_mode ctx_flags ctx_master_key_descriptor].
  rewrite u8_to_u8. change (1 mod 256 =? 1) with true. cbv iota.
  rewrite <- Hv, to_u8_u8. unfold policy_wf in Hwf.
  rewrite (memcpy_whole _ (master_key_descriptor p)) by (exact Hwf || reflexivity).
  rewrite memcpy_whole by (exact Hwf || reflexivity).
  destruct p; reflexivity.
Qed.


(** X3: a stored policy read back.  On an encrypted inode without cached
    info for which the filesystem returns the context made from a version-1
    policy (what [fscrypt_ioctl_set_policy] and [fscrypt_inherit_context]
    store), [fscrypt_get_policy] yields that policy whatever the nonce, and
    [fscrypt_ioctl_get_policy] stores its twelve bytes when the user buffer
    takes them and fails with [-EFAULT] when it is shorter. *)
Theorem fscrypt_get_policy_stored_context
        (filp : file) (p : fscrypt_policy) (cap : Z) :
  policy_wf p ->
  u8 (version p) = FSCRYPT_POLICY_V1 ->
  IS_ENCRYPTED (f_inode filp) = true ->
  i_crypt_info (f_inode filp) = None ->
  get_context s_cop (f_inode filp)
  = (sizeof_context_v1, fst (fscrypt_new_context_from_policy p)) ->
  fscrypt_get_policy (f_inode filp) = Ok p
  /\ (sizeof_policy_v1 <= cap ->
      fscrypt_ioctl_get_policy filp cap = (0, policy_bytes p))
  /\ (cap < sizeof_policy_v1 ->
      fst (fscrypt_ioctl_get_policy filp cap) = - EFAULT).
Proof.
  intros Hwf Hv Henc Hci Hctx.
  pose proof (policy_bytes_length p Hwf) as Hl.
  assert (Hg : fscrypt_get_policy (f_inode filp) = Ok p).
  { unfold fscrypt_get_policy. rewrite Hci, Henc, Hctx. cbn [negb].
    change (sizeof_context_v1 <? 0) with false. cbv iota.
    apply policy_from_new_context; assumption. }
  split; [exact Hg|].
  unfold fscrypt_ioctl_get_policy. rewrite Hg, Hv.
  change (FSCRYPT_POLICY_V1 =? FSCRYPT_POLICY_V1) with true. cbn [negb].
  unfold copy_to_user. change sizeof_policy_v1 with 12.
  split; intros Hcap.
  - rewrite Z.max_l, Z.min_r by lia.
    rewrite Z.sub_diag. change (0 =? 0) with true. cbn [negb].
    f_equal. change (Z.to_nat 12) with 12%nat.
    rewrite <- Hl. apply firstn_all.
  - destruct (12 - Z.min (Z.max cap 0) 12 =? 0) eqn:E;
      [apply Z.eqb_eq in E; lia | reflexivity].
Qed.

(** X4: reading a policy and setting it again.  On an inode that carries a
    version-1 policy, the bytes [fscrypt_ioctl_get_policy] stores are the
    policy's, and passing them to [fscrypt_ioctl_set_policy] on the same
    inode returns 0 and changes nothing. *)
Theorem fscrypt_get_then_set_policy
        (filp : file) (existing : fscrypt_policy) (cap : Z) :
  fscrypt_get_policy (f_inode filp) = Ok existing ->
  policy_wf existing ->
  u8 (version existing) = FSCRYPT_POLICY_V1 ->
  inode_owner_or_capable filp = true ->
  mnt_want_write_file filp = 0 ->
  sizeof_policy_v1 <= cap ->
  fscrypt_ioctl_get_policy filp cap = (0, policy_bytes existing)
  /\ fscrypt_ioctl_set_policy filp (snd (fscrypt_ioctl_get_policy filp cap))
     = (0, f_inode filp).
Proof.
  intros Hget Hwf Hv Hown Hmnt Hcap.
  pose proof (policy_bytes_length existing Hwf) as Hl.
  assert (Hg : fscrypt_ioctl_get_policy filp cap = (0, policy_bytes existing)).
  { unfold fscrypt_ioctl_get_policy. rewrite Hget, Hv.
    change (FSCRYPT_POLICY_V1 =? FSCRYPT_POLICY_V1) with true. cbn [negb].
    unfold copy_to_user.
    rewrite Z.max_l, Z.min_r by (unfold sizeof_policy_v1 in *; cbn in *; lia).
    rewrite Z.sub_diag. change (0 =? 0) with true. cbn [negb].
    f_equal. change (Z.to_nat sizeof_policy_v1) with 12%nat.
    rewrite <- Hl. apply firstn_all. }
  split; [exact Hg|]. rewrite Hg. cbn [snd].
  rewrite ioctl_set_policy_checked; try assumption.
  - rewrite Hget. change (Z.to_nat sizeof_policy_v1) with 12%nat.
    rewrite <- Hl, firstn_all, policy_of_bytes_bytes by exact Hwf.
    rewrite fscrypt_policies_equal_refl. reflexivity.
  - unfold len. rewrite Hl. reflexivity.
Qed.

(** X5: an inode whose stored context cannot be read as a version-1
    context (the filesystem reports [-ERANGE], or the version byte is not
    1) counts as carrying a different policy: [fscrypt_ioctl_set_policy]
    returns [-EEXIST] and leaves it alone.  Any other error of the
    filesystem, [-ENODATA] apart, is returned as it is. *)
Theorem fscrypt_ioctl_set_policy_unreadable
        (filp : file) (arg : list byte) (ret : Z) (ctx : fscrypt_context) :
  i_crypt_info (f_inode filp) = None ->
  IS_ENCRYPTED (f_inode filp) = true ->
  get_context s_cop (f_inode filp) = (ret, ctx) ->
  sizeof_policy_v1 <= len arg ->
  u8 (nth 0 arg x00) = FSCRYPT_POLICY_V1 ->
  inode_owner_or_capable filp = true ->
  mnt_want_write_file filp = 0 ->
  (ret = - ERANGE \/ (0 <= ret /\ u8 (ctx_version ctx) <> 1) ->
   fscrypt_ioctl_set_policy filp arg = (- EEXIST, f_inode filp))
  /\ (ret < 0 -> ret <> - ERANGE -> ret <> - ENODATA -> ret <> - EINVAL ->
      fscrypt_ioctl_set_policy filp arg = (ret, f_inode filp)).
Proof.
  intros Hci Henc Hctx Hlen Hv Hown Hmnt.
  rewrite (ioctl_set_policy_checked filp arg Hlen Hv Hown Hmnt).
  unfold fscrypt_get_policy, fscrypt_policy_from_context.
  rewrite Hci, Henc, Hctx. cbn [negb].
  split.
  - intros [-> | [Hr Hver]].
    + reflexivity.
    + destruct (ret <? 0) eqn:E; [apply Z.ltb_lt in E; lia|].
      apply Z.eqb_neq in Hver. rewrite Hver. reflexivity.
  - intros Hneg H1 H2 H3.
    destruct (ret <? 0) eqn:E; [|apply Z.ltb_ge in E; lia].
    apply Z.eqb_neq in H1, H2, H3. rewrite H1, H2, H3. reflexivity.
Qed.

(** ** Inheriting the parent's policy *)


(** ** Names with the key *)

Lemma strnlen_padded (s : list byte) :
  Forall (fun c => c <> x00) s ->
  forall (k n : nat),
    (List.length s <= n)%nat ->
    strnlen (s ++ repeat x00 k) n = List.length s.
Proof.
  induction 1 as [|c s Hc Hs IH]; intros k n Hn.
  - cbn [app List.length]. destruct n, k; reflexivity.
  - cbn [List.length] in *. destruct n as [|n]; [lia|].
    cbn [app strnlen].
    destruct (Byte.eqb c x00) eqn:E;
      [apply Byte.byte_dec_bl in E; contradiction|].
    rewrite IH by lia. reflexivity.
Qed.

(** [fname_decrypt] cuts the zero padding off a decrypted buffer. *)
Lemma fname_decrypt_padded
      (ci : fscrypt_info) (iname c : list byte) (k : nat) :
  skcipher_request_alloc = true ->
  skcipher_decrypt ci c = (0, iname ++ repeat x00 k) ->
  List.length c = List.length (iname ++ repeat x00 k) ->
  Forall (fun b => b <> x00) iname ->
  fname_decrypt ci c = Ok iname.
Proof.
  intros Ha Hdec Hlen Hnul.
  unfold fname_decrypt. rewrite Ha, Hdec. cbn [negb].
  change (0 <? 0) with false. cbv iota.
  rewrite Hlen, strnlen_padded;
    [|exact Hnul | rewrite length_app; lia].
  f_equal. apply firstn_exact. reflexivity.
Qed.


Lemma not_dot_of_length (s : list byte) :
  2 < len s -> fscrypt_is_dot_dotdot s = false.
Proof.
  intros H. destruct (fscrypt_is_dot_dotdot s) eqn:E; [|reflexivity].
  apply dot_dotdot_short in E. lia.
Qed.

(** X9: a name looked up and listed with the key.  Take an encrypted
    directory whose encryption info resolves with its key, a filesystem
    maximum between one cipher block and [2^32 - 32], allocations that
    succeed for buffers of one block up to the maximum, and a cipher that
    encrypts every buffer of one block up to the maximum into a buffer of
    the same length which it decrypts back.  Then for a name other than [.]
    and [..], without NUL bytes and no longer than the maximum,
    [fscrypt_setup_filename] succeeds with a ciphertext disk name of at
    least one cipher block, at least the name's length and at most the
    maximum; and [fscrypt_fname_disk_to_usr] turns that disk name back into
    the name. *)
Theorem fscrypt_setup_then_disk_to_usr
        (dir dir1 : inode) (ci : fscrypt_info) (iname : list byte)
        (lookup hash0 minor0 : Z) :
  IS_ENCRYPTED dir = true ->
  fscrypt_is_dot_dotdot iname = false ->
  fscrypt_get_encryption_info dir = (0, dir1) ->
  i_crypt_info dir1 = Some ci ->
  len iname <= max_namelen s_cop ->
  FS_CRYPTO_BLOCK_SIZE <= max_namelen s_cop <= 2 ^ 32 - 32 ->
  (forall n, FS_CRYPTO_BLOCK_SIZE <= n <= max_namelen s_cop ->
             kmalloc n = true) ->
  skcipher_request_alloc = true ->
  (forall buf,
      FS_CRYPTO_BLOCK_SIZE <= len buf <= max_namelen s_cop ->
      exists out,
        skcipher_encrypt ci buf = (0, out)
        /\ skcipher_decrypt ci out = (0, buf)
        /\ List.length out = List.length buf) ->
  Forall (fun b => b <> x00) iname ->
  exists c,
    fscrypt_setup_filename dir iname lookup
    = (0, {| usr_fname := iname;
             disk_name := {| name := Some c; str_len := len c |};
             hash := 0; minor_hash := 0;
             crypto_buf := {| name := Some c; str_len := len c |};
             is_ciphertext_name := false |})
    /\ FS_CRYPTO_BLOCK_SIZE <= len c <= max_namelen s_cop
    /\ len iname <= len c
    /\ fscrypt_fname_disk_to_usr dir1 hash0 minor0 c = Ok iname.
Proof.
  intros Henc Hdot Hinfo Hci Hfit Hmax Hk Ha Hcipher Hnul.
  pose proof (len_nonneg iname) as Hn.
  destruct (encrypted_size_value ci (len iname) (max_namelen s_cop))
    as (k & Hk2 & Hp & Hsize); [lia | lia |].
  set (clen := Z.min (2 ^ k * ((Z.max (len iname) FS_CRYPTO_BLOCK_SIZE
                                 + 2 ^ k - 1) / 2 ^ k))
                     (max_namelen s_cop)) in *.
  assert (Hclen : FS_CRYPTO_BLOCK_SIZE <= clen <= max_namelen s_cop
                  /\ len iname <= clen).
  { assert (Hpos : 0 < 2 ^ k) by (apply Z.pow_pos_nonneg; lia).
    pose proof (Z.mul_succ_div_gt
                  (Z.max (len iname) FS_CRYPTO_BLOCK_SIZE + 2 ^ k - 1)
                  (2 ^ k) Hpos) as Hgt.
    unfold clen. unfold FS_CRYPTO_BLOCK_SIZE in *. lia. }
  destruct (Hcipher (iname ++ repeat x00 (Z.to_nat (clen - len iname))))
    as (c & Hec & Hdc & Hlc).
  { unfold len in *. rewrite length_app, repeat_length. lia. }
  assert (Hfe : fname_encrypt ci iname clen = (0, c)).
  { unfold fname_encrypt.
    destruct (clen <? len iname) eqn:E; [apply Z.ltb_lt in E; lia|].
    rewrite Ha, Hec. reflexivity. }
  assert (Hlen : len c = clen).
  { unfold len in *. rewrite Hlc, length_app, repeat_length. lia. }
  assert (Hdec : fname_decrypt ci c = Ok iname)
    by (apply (fname_decrypt_padded ci iname c _ Ha Hdc Hlc Hnul)).
  exists c. rewrite Hlen.
  split; [|split; [apply Hclen | split; [apply Hclen|]]].
  - unfold fscrypt_setup_filename.
    rewrite Henc, Hdot, Hinfo, Hci, Hsize, (Hk clen (proj1 Hclen)), Hfe.
    reflexivity.
  - unfold fscrypt_fname_disk_to_usr.
    rewrite not_dot_of_length
      by (unfold FS_CRYPTO_BLOCK_SIZE in *; lia).
    destruct (len c <? FS_CRYPTO_BLOCK_SIZE) eqn:E;
      [apply Z.ltb_lt in E; lia|].
    rewrite Hci. exact Hdec.
Qed.

(** ** Names without the key, both directions *)

(** What [fscrypt_fname_disk_to_usr] returns without the key. *)
Lemma disk_to_usr_nokey_short
      (i : inode) (hash0 minor0 : Z) (c : list byte) :
  i_crypt_info i = None ->
  FS_CRYPTO_BLOCK_SIZE <= len c <= sizeof_nokey_bytes ->
  fscrypt_fname_disk_to_usr i hash0 minor0 c
  = Ok (base64_encode
          (u32_bytes (if hash0 =? 0 then 0 else hash0)
           ++ u32_bytes (if hash0 =? 0 then 0 else minor0) ++ c)).
Proof.
  intros Hkey Hlen. unfold fscrypt_fname_disk_to_usr.
  rewrite not_dot_of_length by (unfold FS_CRYPTO_BLOCK_SIZE in *; lia).
  destruct (len c <? FS_CRYPTO_BLOCK_SIZE) eqn:E1; [apply Z.ltb_lt in E1; lia|].
  destruct (len c <=? sizeof_nokey_bytes) eqn:E2; [|apply Z.leb_gt in E2; lia].
  rewrite Hkey.
  destruct (hash0 =? 0); cbn [negb]; unfold nokey_name_bytes;
    cbn [dirhash0 dirhash1 nk_bytes nk_sha256];
    rewrite firstn_all, app_nil_r;
    (rewrite firstn_all2
       by (rewrite !length_app, !u32_bytes_length;
           unfold offsetof_bytes, len; lia));
    reflexivity.
Qed.

Lemma disk_to_usr_nokey_long
      (i : inode) (hash0 minor0 : Z) (c digest : list byte) :
  i_crypt_info i = None ->
  sizeof_nokey_bytes < len c ->
  fscrypt_do_sha256 (skipn (Z.to_nat sizeof_nokey_bytes) c) = (0, digest) ->
  len digest = sizeof_nokey_sha256 ->
  fscrypt_fname_disk_to_usr i hash0 minor0 c
  = Ok (base64_encode
          (u32_bytes (if hash0 =? 0 then 0 else hash0)
           ++ u32_bytes (if hash0 =? 0 then 0 else minor0)
           ++ firstn (Z.to_nat sizeof_nokey_bytes) c ++ digest)).
Proof.
  intros Hkey Hlen Hsha Hd. unfold fscrypt_fname_disk_to_usr.
  rewrite not_dot_of_length by (unfold sizeof_nokey_bytes in *; lia).
  destruct (len c <? FS_CRYPTO_BLOCK_SIZE) eqn:E1;
    [apply Z.ltb_lt in E1;
     unfold FS_CRYPTO_BLOCK_SIZE, sizeof_nokey_bytes in *; lia|].
  destruct (len c <=? sizeof_nokey_bytes) eqn:E2; [apply Z.leb_le in E2; lia|].
  rewrite Hkey, Hsha.
  assert (Hpre : List.length (firstn (Z.to_nat sizeof_nokey_bytes) c)
                 = 149%nat).
  { rewrite length_firstn. unfold len, sizeof_nokey_bytes in *. lia. }
  assert (Hdl : List.length digest = 32%nat)
    by (unfold len, sizeof_nokey_sha256 in Hd; lia).
  destruct (hash0 =? 0); cbn [negb]; change (negb (0 =? 0)) with false;
    cbv iota; unfold nokey_name_bytes;
    cbn [dirhash0 dirhash1 nk_bytes nk_sha256];
    (rewrite firstn_all2
       by (rewrite !length_app, !u32_bytes_length, Hpre, Hdl; cbv; lia));
    reflexivity.
Qed.

(** What a keyless lookup makes of a name that decodes to an acceptable
    length. *)
Lemma setup_filename_nokey_decoded
      (dir dir1 : inode) (iname buf : list byte) (lookup ret : Z) :
  IS_ENCRYPTED dir = true ->
  fscrypt_is_dot_dotdot iname = false ->
  fscrypt_get_encryption_info dir = (0, dir1) ->
  i_crypt_info dir1 = None ->
  lookup <> 0 ->
  kmalloc FSCRYPT_NOKEY_NAME_MAX = true ->
  len iname <= BASE64_CHARS FSCRYPT_NOKEY_NAME_MAX ->
  base64_decode iname = (ret, buf) ->
  offsetof_bytes 1 <= ret <= offsetof_sha256 \/ ret = FSCRYPT_NOKEY_NAME_MAX ->
  fscrypt_setup_filename dir iname lookup
  = (0, {| usr_fname := iname;
           disk_name :=
             if negb (ret =? FSCRYPT_NOKEY_NAME_MAX)
             then {| name := Some (skipn 8 buf);
                     str_len := ret - offsetof_bytes 0 |}
             else null_str;
           hash := u32_of_bytes (firstn 4 buf);
           minor_hash := u32_of_bytes (firstn 4 (skipn 4 buf));
           crypto_buf := {| name := Some buf; str_len := ret |};
           is_ciphertext_name := true |}).
Proof.
  intros Henc Hdot Hinfo Hkey Hl Hk Hlen Hdec Hret.
  unfold fscrypt_setup_filename.
  rewrite Henc, Hdot, Hinfo, Hkey. cbn [negb orb].
  change (negb (0 =? 0)) with false. cbv iota.
  apply Z.eqb_neq in Hl. rewrite Hl, Hk, Hdec. cbn [negb].
  destruct (len iname >? BASE64_CHARS FSCRYPT_NOKEY_NAME_MAX) eqn:E0;
    [rewrite Z.gtb_ltb in E0; apply Z.ltb_lt in E0; lia|].
  change (offsetof_bytes 1) with 9 in *. change offsetof_sha256 with 157 in *.
  change FSCRYPT_NOKEY_NAME_MAX with 189 in *.
  assert (E1 : (ret <? 9) = false) by (apply Z.ltb_ge; lia).
  rewrite E1. cbn [orb].
  destruct (ret =? 189) eqn:E3.
  - rewrite andb_false_r. reflexivity.
  - apply Z.eqb_neq in E3.
    assert (E2 : (ret >? 157) = false)
      by (rewrite Z.gtb_ltb; apply Z.ltb_ge; lia).
    rewrite E2. reflexivity.
Qed.

Lemma u32_stored_range (hash0 v : Z) :
  0 <= v < 2 ^ 32 -> 0 <= (if hash0 =? 0 then 0 else v) < 2 ^ 32.
Proof. destruct (hash0 =? 0); lia. Qed.

(** X10: a short name listed and looked up without the key.  For a
    ciphertext name of 16 to 149 bytes in a directory whose key is not
    available, the name [fscrypt_fname_disk_to_usr] presents is accepted by
    a keyless [fscrypt_setup_filename], which recovers the ciphertext as
    the disk name and the stored directory-hash pair. *)
Theorem fscrypt_nokey_present_then_lookup
        (dir dir1 : inode) (hash0 minor0 lookup : Z) (c : list byte) :
  IS_ENCRYPTED dir = true ->
  i_crypt_info dir = None ->
  fscrypt_get_encryption_info dir = (0, dir1) ->
  i_crypt_info dir1 = None ->
  lookup <> 0 ->
  kmalloc FSCRYPT_NOKEY_NAME_MAX = true ->
  0 <= hash0 < 2 ^ 32 -> 0 <= minor0 < 2 ^ 32 ->
  FS_CRYPTO_BLOCK_SIZE <= len c <= sizeof_nokey_bytes ->
  exists presented fname,
    fscrypt_fname_disk_to_usr dir hash0 minor0 c = Ok presented
    /\ fscrypt_setup_filename dir presented lookup = (0, fname)
    /\ disk_name fname = {| name := Some c; str_len := len c |}
    /\ hash fname = (if hash0 =? 0 then 0 else hash0)
    /\ minor_hash fname = (if hash0 =? 0 then 0 else minor0)
    /\ is_ciphertext_name fname = true.
Proof.
  intros Henc Hkey Hinfo Hkey1 Hl Hk Hh Hm Hlen.
  pose proof (u32_stored_range hash0 hash0 Hh) as Hd0.
  pose proof (u32_stored_range hash0 minor0 Hm) as Hd1.
  set (d0 := if hash0 =? 0 then 0 else hash0) in *.
  set (d1 := if hash0 =? 0 then 0 else minor0) in *.
  set (rec := u32_bytes d0 ++ u32_bytes d1 ++ c).
  assert (Hrec : len rec = 8 + len c).
  { unfold rec. rewrite !len_app. unfold len. rewrite !u32_bytes_length. lia. }
  unfold FS_CRYPTO_BLOCK_SIZE, sizeof_nokey_bytes in Hlen.
  assert (Hplen : len (base64_encode rec) = BASE64_CHARS (len rec))
    by apply base64_encode_length.
  assert (Hbound : 32 <= len (base64_encode rec) <= 252).
  { rewrite Hplen, Hrec. unfold BASE64_CHARS, DIV_ROUND_UP. divmod. }
  eexists. eexists.
  split; [apply disk_to_usr_nokey_short;
          [exact Hkey
          | unfold FS_CRYPTO_BLOCK_SIZE, sizeof_nokey_bytes; exact Hlen]|].
  fold d0 d1 rec.
  split.
  - apply (setup_filename_nokey_decoded dir dir1 _ rec lookup (len rec));
      try assumption.
    + apply not_dot_of_length. lia.
    + change (BASE64_CHARS FSCRYPT_NOKEY_NAME_MAX) with 252. lia.
    + apply base64_roundtrip.
    + left. change (offsetof_bytes 1) with 9.
      change offsetof_sha256 with 157. lia.
  - cbn [disk_name hash minor_hash is_ciphertext_name].
    assert (E : (len rec =? FSCRYPT_NOKEY_NAME_MAX) = false)
      by (apply Z.eqb_neq; change FSCRYPT_NOKEY_NAME_MAX with 189; lia).
    rewrite E. cbn [negb].
    assert (Hskip : skipn 8 rec = c) by reflexivity.
    assert (H0 : firstn 4 rec = u32_bytes d0) by reflexivity.
    assert (H1 : firstn 4 (skipn 4 rec) = u32_bytes d1) by reflexivity.
    rewrite Hskip, H0, H1, !u32_of_bytes_bytes by assumption.
    repeat split. f_equal. rewrite Hrec. change (offsetof_bytes 0) with 8. lia.
Qed.

(** X11: a long name listed and looked up without the key.  For a
    ciphertext name of more than 149 bytes whose digest is computed, the
    presented name is accepted by a keyless [fscrypt_setup_filename], which
    sets no disk name and keeps, besides the stored hash pair, the 189-byte
    record with the first 149 ciphertext bytes and the digest of the rest. *)
Theorem fscrypt_nokey_present_then_lookup_long
        (dir dir1 : inode) (hash0 minor0 lookup : Z) (c digest : list byte) :
  IS_ENCRYPTED dir = true ->
  i_crypt_info dir = None ->
  fscrypt_get_encryption_info dir = (0, dir1) ->
  i_crypt_info dir1 = None ->
  lookup <> 0 ->
  kmalloc FSCRYPT_NOKEY_NAME_MAX = true ->
  0 <= hash0 < 2 ^ 32 -> 0 <= minor0 < 2 ^ 32 ->
  sizeof_nokey_bytes < len c ->
  fscrypt_do_sha256 (skipn (Z.to_nat sizeof_nokey_bytes) c) = (0, digest) ->
  len digest = sizeof_nokey_sha256 ->
  exists presented fname,
    fscrypt_fname_disk_to_usr dir hash0 minor0 c = Ok presented
    /\ len presented = BASE64_CHARS FSCRYPT_NOKEY_NAME_MAX
    /\ fscrypt_setup_filename dir presented lookup = (0, fname)
    /\ disk_name fname = null_str
    /\ hash fname = (if hash0 =? 0 then 0 else hash0)
    /\ minor_hash fname = (if hash0 =? 0 then 0 else minor0)
    /\ crypto_buf fname
       = {| name :=
              Some (u32_bytes (if hash0 =? 0 then 0 else hash0)
                    ++ u32_bytes (if hash0 =? 0 then 0 else minor0)
                    ++ firstn (Z.to_nat sizeof_nokey_bytes) c ++ digest);
            str_len := FSCRYPT_NOKEY_NAME_MAX |}.
Proof.
  intros Henc Hkey Hinfo Hkey1 Hl Hk Hh Hm Hlen Hsha Hd.
  pose proof (u32_stored_range hash0 hash0 Hh) as Hd0.
  pose proof (u32_stored_range hash0 minor0 Hm) as Hd1.
  set (d0 := if hash0 =? 0 then 0 else hash0) in *.
  set (d1 := if hash0 =? 0 then 0 else minor0) in *.
  set (rec := u32_bytes d0 ++ u32_bytes d1
              ++ firstn (Z.to_nat sizeof_nokey_bytes) c ++ digest).
  assert (Hrec : len rec = 189).
  { unfold rec. rewrite !len_app. unfold len at 1 2 3.
    rewrite !u32_bytes_length, length_firstn.
    unfold len, sizeof_nokey_bytes, sizeof_nokey_sha256 in *. lia. }
  assert (Hplen : len (base64_encode rec) = 252)
    by (rewrite base64_encode_length, Hrec; reflexivity).
  eexists. eexists.
  split; [apply (disk_to_usr_nokey_long dir hash0 minor0 c digest);
          assumption|].
  fold d0 d1 rec.
  split; [exact Hplen|].
  split.
  - apply (setup_filename_nokey_decoded dir dir1 _ rec lookup (len rec));
      try assumption.
    + apply not_dot_of_length. lia.
    + change (BASE64_CHARS FSCRYPT_NOKEY_NAME_MAX) with 252. lia.
    + apply base64_roundtrip.
    + right. exact Hrec.
  - cbn [disk_name hash minor_hash crypto_buf].
    rewrite Hrec. change (189 =? FSCRYPT_NOKEY_NAME_MAX) with true. cbn [negb].
    assert (H0 : firstn 4 rec = u32_bytes d0) by reflexivity.
    assert (H1 : firstn 4 (skipn 4 rec) = u32_bytes d1) by reflexivity.
    rewrite H0, H1, !u32_of_bytes_bytes by assumption.
    repeat split.
Qed.

Lemma Ok_inj {A} (x y : A) : Ok x = Ok y -> x = y.
Proof.
  intros H.
  exact (f_equal (fun r => match r with Ok v => v | Err _ => x end) H).
Qed.

Lemma base64_encode_inj (a b : list byte) :
  base64_encode a = base64_encode b -> a = b.
Proof.
  intros H. apply (f_equal base64_decode) in H.
  rewrite !base64_roundtrip in H. inversion H. reflexivity.
Qed.

Lemma nokey_name_bytes_length (n : fscrypt_nokey_name) (size : Z) :
  0 <= size -> 0 <= len (nokey_name_bytes n size) <= size.
Proof.
  intros Hs. unfold nokey_name_bytes, len. rewrite length_firstn. lia.
Qed.

(** X12: without the key, whatever the length of the name on disk, the
    name [fscrypt_fname_disk_to_usr] presents has at most
    [BASE64_CHARS(FSCRYPT_NOKEY_NAME_MAX)] = 252 characters. *)
Theorem fscrypt_fname_disk_to_usr_nokey_bound
        (i : inode) (hash0 minor0 : Z) (iname presented : list byte) :
  i_crypt_info i = None ->
  fscrypt_fname_disk_to_usr i hash0 minor0 iname = Ok presented ->
  len presented <= BASE64_CHARS FSCRYPT_NOKEY_NAME_MAX
  /\ BASE64_CHARS FSCRYPT_NOKEY_NAME_MAX = 252.
Proof.
  intros Hkey H. split; [|reflexivity].
  change (BASE64_CHARS FSCRYPT_NOKEY_NAME_MAX) with 252.
  unfold fscrypt_fname_disk_to_usr in H.
  destruct (fscrypt_is_dot_dotdot iname) eqn:Ed.
  { apply dot_dotdot_short in Ed. inversion H. subst presented.
    unfold len in *. rewrite repeat_length. lia. }
  destruct (len iname <? FS_CRYPTO_BLOCK_SIZE) eqn:E1; [discriminate|].
  apply Z.ltb_ge in E1. rewrite Hkey in H.
  pose proof (len_nonneg iname) as Hn.
  assert (Hany : forall n size,
             0 <= size <= 189 ->
             len (base64_encode (nokey_name_bytes n size)) <= 252).
  { intros n size Hs. rewrite base64_encode_length.
    pose proof (nokey_name_bytes_length n size (proj1 Hs)) as Hb.
    unfold BASE64_CHARS, DIV_ROUND_UP. divmod. }
  destruct (if negb (hash0 =? 0) then (hash0, minor0) else (0, 0)) as [d0 d1].
  destruct (len iname <=? sizeof_nokey_bytes) eqn:E2.
  - apply Z.leb_le in E2. inversion H. apply Hany.
    unfold offsetof_bytes, sizeof_nokey_bytes in *. lia.
  - destruct (fscrypt_do_sha256 _) as [err digest].
    destruct (negb (err =? 0)); [discriminate|].
    inversion H. apply Hany. cbv. split; discriminate.
Qed.

(** X13: without the key, two ciphertext names of 16 to 149 bytes that are
    presented as the same text are the same name, whatever directory-hash
    pairs they were listed with. *)
Theorem fscrypt_fname_disk_to_usr_nokey_injective
        (i : inode) (hash1 minor1 hash2 minor2 : Z)
        (a b presented : list byte) :
  i_crypt_info i = None ->
  FS_CRYPTO_BLOCK_SIZE <= len a <= sizeof_nokey_bytes ->
  FS_CRYPTO_BLOCK_SIZE <= len b <= sizeof_nokey_bytes ->
  fscrypt_fname_disk_to_usr i hash1 minor1 a = Ok presented ->
  fscrypt_fname_disk_to_usr i hash2 minor2 b = Ok presented ->
  a = b.
Proof.
  intros Hkey Ha Hb H1 H2.
  rewrite disk_to_usr_nokey_short in H1, H2 by assumption.
  rewrite <- H2 in H1. apply Ok_inj, base64_encode_inj in H1.
  apply (f_equal (skipn 8)) in H1. exact H1.
Qed.

(** ** The entries [.] and [..] *)

Lemma dot_dotdot_cases (s : list byte) :
  fscrypt_is_dot_dotdot s = true ->
  s = [byte_dot] \/ s = [byte_dot; byte_dot].
Proof.
  unfold fscrypt_is_dot_dotdot, len.
  destruct s as [|x [|y [|z s]]]; cbn [List.length nth]; try discriminate.
  - change (Z.of_nat 1 =? 1) with true. cbn [andb].
    destruct (Byte.eqb x byte_dot) eqn:E; [|discriminate].
    apply Byte.byte_dec_bl in E. subst. left. reflexivity.
  - change (Z.of_nat 2 =? 1) with false. change (Z.of_nat 2 =? 2) with true.
    cbn [andb].
    destruct (Byte.eqb x byte_dot) eqn:E; cbn [andb]; [|discriminate].
    destruct (Byte.eqb y byte_dot) eqn:F; [|discriminate].
    apply Byte.byte_dec_bl in E, F. subst. right. reflexivity.
  - intros H. exfalso. revert H.
    replace (Z.of_nat (S (S (S (List.length s)))) =? 1) with false
      by (symmetry; apply Z.eqb_neq; lia).
    replace (Z.of_nat (S (S (S (List.length s)))) =? 2) with false
      by (symmetry; apply Z.eqb_neq; lia).
    cbn [andb]. discriminate.
Qed.

(** X14: the entries [.] and [..] bypass the codec in both directions:
    whatever the directory's encryption state, the key, the [lookup] flag
    and the hash pair, [fscrypt_setup_filename] succeeds with the name
    itself as disk name and [fscrypt_fname_disk_to_usr] returns the name
    unchanged. *)
Theorem fscrypt_dot_dotdot_passthrough
        (dir i : inode) (iname : list byte) (lookup hash0 minor0 : Z) :
  fscrypt_is_dot_dotdot iname = true ->
  fscrypt_setup_filename dir iname lookup
  = (0, {| usr_fname := iname;
           disk_name := {| name := Some iname; str_len := len iname |};
           hash := 0; minor_hash := 0; crypto_buf := null_str;
           is_ciphertext_name := false |})
  /\ fscrypt_fname_disk_to_usr i hash0 minor0 iname = Ok iname.
Proof.
  intros Hdot. split.
  - unfold fscrypt_setup_filename. rewrite Hdot, orb_true_r. reflexivity.
  - unfold fscrypt_fname_disk_to_usr. rewrite Hdot.
    destruct (dot_dotdot_cases iname Hdot) as [-> | ->]; reflexivity.
Qed.

(** ** Base64: the decoder on arbitrary text *)

Lemma strchr_index (s : list byte) (c : byte) :
  forall i k,
    strchr s c i = Some k -> c <> x00 ->
    i <= k < i + len s /\ nth (Z.to_nat (k - i)) s x00 = c.
Proof.
  induction s as [|x s IH]; intros i k H Hc; cbn [strchr] in H.
  - destruct (Byte.eqb c x00) eqn:E; [|discriminate].
    apply Byte.byte_dec_bl in E. contradiction.
  - rewrite len_cons. pose proof (len_nonneg s) as Hn.
    destruct (Byte.eqb x c) eqn:E.
    + apply Byte.byte_dec_bl in E. inversion H. subst.
      rewrite Z.sub_diag. split; [lia | reflexivity].
    + destruct (IH _ _ H Hc) as [Hr Hnth]. split; [lia|].
      replace (Z.to_nat (k - i)) with (S (Z.to_nat (k - (i + 1)))) by lia.
      exact Hnth.
Qed.

Lemma strchr_table (c : byte) (p : Z) :
  strchr lookup_table c 0 = Some p -> Byte.eqb c x00 = false ->
  0 <= p < 64 /\ c = lookup p.
Proof.
  intros H Hc. apply Byte.eqb_false in Hc.
  destruct (strchr_index _ _ _ _ H Hc) as [Hr Hnth].
  change (len lookup_table) with 64 in Hr. split; [lia|].
  unfold lookup. rewrite Z.sub_0_r in Hnth. symmetry. exact Hnth.
Qed.

Lemma strchr_some (s : list byte) (c : byte) :
  In c s -> forall i, strchr s c i <> None.
Proof.
  induction s as [|x s IH]; intros Hin i; [destruct Hin|].
  cbn [strchr]. destruct (Byte.eqb x c) eqn:E; [discriminate|].
  destruct Hin as [-> | Hin]; [|apply IH, Hin].
  pose proof (@Byte.byte_dec_lb c c eq_refl) as K. rewrite K in E.
  discriminate.
Qed.

Lemma table_has_no_nul : ~ In x00 lookup_table.
Proof. clear_collaborators. vm_compute. intuition discriminate. Qed.

Lemma decode_loop_minus2 (src : list byte) :
  forall bits ac out,
    fst (decode_loop src bits ac out) = -2 ->
    exists c, In c src /\ ~ In c lookup_table.
Proof.
  induction src as [|c rest IH]; intros bits ac out H; cbn [decode_loop] in H.
  - destruct (ac =? 0); cbn [fst] in H; [|discriminate].
    pose proof (len_nonneg out). lia.
  - destruct (strchr lookup_table c 0) as [p|] eqn:Ep.
    2:{ exists c. split; [left; reflexivity|].
        intros Hin. apply (strchr_some _ _ Hin 0). exact Ep. }
    destruct (Byte.eqb c x00) eqn:Ec.
    { apply Byte.byte_dec_bl in Ec. subst c. exists x00.
      split; [left; reflexivity | exact table_has_no_nul]. }
    destruct (8 <=? bits + 6); apply IH in H;
      destruct H as (b & Hin & Hbad); exists b; (split; [right|]); assumption.
Qed.

Lemma decode_loop_status (src : list byte) :
  forall bits ac out,
    let r := fst (decode_loop src bits ac out) in
    r = -2 \/ r = -1 \/ 0 <= r.
Proof.
  clear_collaborators.
  induction src as [|c rest IH]; intros bits ac out; cbn [decode_loop].
  - destruct (ac =? 0); cbn [fst]; [|tauto].
    pose proof (len_nonneg out). tauto.
  - destruct (strchr lookup_table c 0); [|cbn; tauto].
    destruct (Byte.eqb c x00); [cbn; tauto|].
    destruct (8 <=? bits + 6); apply IH.
Qed.

(** X15: the outcomes of [base64_decode].  It returns -2 exactly when the
    text holds a character outside the table, and otherwise -1 (bits left
    over that are not zero) or the number of bytes stored, which is
    [6 * len / 8] rounded down. *)
Theorem base64_decode_outcomes (s : list byte) :
  (fst (base64_decode s) = -2
   <-> exists c, In c s /\ ~ In c lookup_table)
  /\ (fst (base64_decode s) = -2 \/ fst (base64_decode s) = -1
      \/ (fst (base64_decode s) = len (snd (base64_decode s))
          /\ len (snd (base64_decode s)) = 6 * len s / 8)).
Proof.
  clear_collaborators. split.
  - split.
    + apply decode_loop_minus2.
    + intros (c & Hin & Hbad). apply (decode_loop_rejects s c Hin Hbad).
  - pose proof (decode_loop_status s 0 0 []) as H. cbv zeta in H.
    fold (base64_decode s) in H.
    destruct H as [H | [H | H]]; [tauto | tauto |].
    right. right.
    destruct (base64_decode s) as [r bs] eqn:E. cbn [fst snd] in *.
    apply (base64_decode_count s r bs E H).
Qed.

(** Whatever the outcome, the decoder has stored at most one byte for
    every eight bits read. *)
Lemma decode_loop_written (src : list byte) :
  forall bits ac out,
    0 <= bits < 8 ->
    len (snd (decode_loop src bits ac out))
    <= len out + (bits + 6 * len src) / 8.
Proof.
  clear_collaborators.
  induction src as [|c rest IH]; intros bits ac out Hb.
  - cbn [decode_loop]. change (len (@nil byte)) with 0.
    destruct (ac =? 0); cbn [snd]; divmod.
  - cbn [decode_loop]. rewrite len_cons.
    pose proof (len_nonneg rest) as Hn. pose proof (len_nonneg out) as Ho.
    destruct (strchr lookup_table c 0) as [p|]; [|cbn [snd]; divmod].
    destruct (Byte.eqb c x00); [cbn [snd]; divmod|].
    destruct (8 <=? bits + 6) eqn:E.
    + apply Z.leb_le in E.
      eapply Z.le_trans; [apply IH; lia|].
      rewrite len_app. change (len [to_u8 (Z.land (ac + Z.shiftl p bits) 255)])
        with 1. divmod.
    + apply Z.leb_gt in E.
      eapply Z.le_trans; [apply IH; lia|]. divmod.
Qed.

(** X17: [base64_decode] never stores more than [6 * len / 8] bytes,
    also when it rejects the text; so for a name that passes the length
    check of the keyless [fscrypt_setup_filename], what is stored fits the
    [FSCRYPT_NOKEY_NAME_MAX] bytes allocated for it. *)
Theorem base64_decode_fits (s : list byte) :
  len (snd (base64_decode s)) <= 6 * len s / 8
  /\ (len s <= BASE64_CHARS FSCRYPT_NOKEY_NAME_MAX ->
      len (snd (base64_decode s)) <= FSCRYPT_NOKEY_NAME_MAX).
Proof.
  clear_collaborators.
  pose proof (decode_loop_written s 0 0 [] ltac:(lia)) as H.
  fold (base64_decode s) in H. change (len (@nil byte)) with 0 in H.
  cbn [Z.add] in H. split; [exact H|].
  change (BASE64_CHARS FSCRYPT_NOKEY_NAME_MAX) with 252.
  change FSCRYPT_NOKEY_NAME_MAX with 189. intros Hs.
  revert H. generalize (len (snd (base64_decode s))). intros w H. divmod.
Qed.

(** X18: the names a keyless lookup accepts.  In an encrypted directory
    without its key, [fscrypt_setup_filename] with [lookup != 0] returns 0
    only for a name made of characters of the table whose length is
    between 12 and 210 or is 252, and only when the buffer was allocated;
    the length of the decoded record is then [6 * len / 8]. *)
Theorem fscrypt_setup_filename_nokey_accepts
        (dir dir1 : inode) (iname : list byte) (lookup : Z) :
  IS_ENCRYPTED dir = true ->
  fscrypt_is_dot_dotdot iname = false ->
  fscrypt_get_encryption_info dir = (0, dir1) ->
  i_crypt_info dir1 = None ->
  lookup <> 0 ->
  fst (fscrypt_setup_filename dir iname lookup) = 0 ->
  Forall (fun c => In c lookup_table) iname
  /\ (12 <= len iname <= 210 \/ len iname = 252)
  /\ kmalloc FSCRYPT_NOKEY_NAME_MAX = true
  /\ str_len (crypto_buf (snd (fscrypt_setup_filename dir iname lookup)))
     = 6 * len iname / 8.
Proof.
  intros Henc Hdot Hinfo Hkey Hl.
  unfold fscrypt_setup_filename.
  rewrite Henc, Hdot, Hinfo, Hkey. cbn [negb orb].
  change (negb (0 =? 0)) with false. cbv iota.
  apply Z.eqb_neq in Hl. rewrite Hl.
  change (BASE64_CHARS FSCRYPT_NOKEY_NAME_MAX) with 252.
  destruct (len iname >? 252) eqn:E0; [cbn [fst]; unfold ENOENT; lia|].
  rewrite Z.gtb_ltb in E0. apply Z.ltb_ge in E0.
  destruct (kmalloc FSCRYPT_NOKEY_NAME_MAX) eqn:Ek; cbn [negb];
    [|cbn [fst]; unfold ENOMEM; lia].
  destruct (base64_decode iname) as [ret buf] eqn:Ed.
  change (offsetof_bytes 1) with 9. change offsetof_sha256 with 157.
  change FSCRYPT_NOKEY_NAME_MAX with 189.
  destruct (ret <? 9) eqn:E1; cbn [orb];
    [cbn [fst]; unfold ENOENT; lia|].
  apply Z.ltb_ge in E1.
  destruct (base64_decode_count iname ret buf Ed ltac:(lia)) as [Hr Hb].
  assert (Htab : Forall (fun c => In c lookup_table) iname).
  { apply Forall_forall. intros c Hin.
    destruct (in_dec Byte.byte_eq_dec c lookup_table) as [Hy|Hn];
      [exact Hy|].
    pose proof (decode_loop_rejects iname c Hin Hn 0 0 []) as Hrej.
    fold (base64_decode iname) in Hrej. rewrite Ed in Hrej.
    cbn [fst] in Hrej. lia. }
  destruct ((ret >? 157) && negb (ret =? 189)) eqn:E2;
    [cbn [fst]; unfold ENOENT; lia|].
  cbn [fst snd crypto_buf str_len]. intros _.
  split; [exact Htab|]. split; [|split; [reflexivity | lia]].
  apply andb_false_iff in E2.
  pose proof (len_nonneg iname) as Hn.
  destruct E2 as [E2|E2].
  - rewrite Z.gtb_ltb in E2. apply Z.ltb_ge in E2. left.
    clear - E1 E2 Hr Hb Hn. divmod.
  - apply negb_false_iff, Z.eqb_eq in E2.
    clear - E0 E2 Hr Hb Hn. divmod.
Qed.

(** The decoder and the encoder in step, read from the decoder's side:
    in each of the four decoder states, the text still to be read,
    preceded by the character that is only partly consumed, is the
    encoding of the bytes still to be stored. *)
Lemma decode_then_encode (s : list byte) :
  forall out n bs,
    0 <= n ->
    (decode_loop s 0 0 out = (n, bs) -> len s mod 4 <> 1 ->
     exists tail, bs = out ++ tail /\ encode_loop tail 0 0 = s)
    /\ (forall d, 0 <= d < 64 ->
          decode_loop s 6 d out = (n, bs) -> len s mod 4 <> 0 ->
          exists tail, bs = out ++ tail
                       /\ encode_loop tail 0 0 = lookup d :: s)
    /\ (forall e h, 0 <= e < 4 -> 0 <= h < 16 ->
          decode_loop s 4 h out = (n, bs) -> len s mod 4 <> 3 ->
          exists tail, bs = out ++ tail
                       /\ encode_loop tail 2 e = lookup (e + 4 * h) :: s)
    /\ (forall e h, 0 <= e < 16 -> 0 <= h < 4 ->
          decode_loop s 2 h out = (n, bs) -> len s mod 4 <> 2 ->
          exists tail, bs = out ++ tail
                       /\ encode_loop tail 4 e = lookup (e + 16 * h) :: s).
Proof.
  induction s as [|c s IH]; intros out n bs Hn.
  - change (len (@nil byte)) with 0. cbn [decode_loop].
    split; [|split; [|split]].
    + intros H _. change (0 =? 0) with true in H. inversion H.
      exists []. rewrite app_nil_r. split; reflexivity.
    + intros d Hd H Hm. exfalso. apply Hm. reflexivity.
    + intros e h He Hh H _.
      destruct (h =? 0) eqn:E; [|inversion H; lia].
      apply Z.eqb_eq in E. subst h. inversion H.
      exists []. rewrite app_nil_r. split; [reflexivity|].
      cbn [encode_loop]. change (2 =? 0) with false. cbv iota.
      rewrite land63. do 2 f_equal. divmod.
    + intros e h He Hh H _.
      destruct (h =? 0) eqn:E; [|inversion H; lia].
      apply Z.eqb_eq in E. subst h. inversion H.
      exists []. rewrite app_nil_r. split; [reflexivity|].
      cbn [encode_loop]. change (4 =? 0) with false. cbv iota.
      rewrite land63. do 2 f_equal. divmod.
  - rewrite len_cons. pose proof (len_nonneg s) as Hlen.
    assert (Hgood : forall bits ac,
               decode_loop (c :: s) bits ac out = (n, bs) ->
               exists p, 0 <= p < 64 /\ c = lookup p).
    { intros bits ac H. cbn [decode_loop] in H.
      destruct (strchr lookup_table c 0) as [p|] eqn:Ep;
        [|inversion H; lia].
      destruct (Byte.eqb c x00) eqn:Ec; [inversion H; lia|].
      exists p. apply (strchr_table c p Ep Ec). }
    split; [|split; [|split]].
    + intros H Hm. destruct (Hgood _ _ H) as (p & Hp & ->).
      rewrite (decode_step _ _ _ _ _ p Hp eq_refl) in H by lia.
      change (8 <=? 0 + 6) with false in H. cbv iota in H.
      replace (0 + p * 2 ^ 0) with p in H by lia. change (0 + 6) with 6 in H.
      destruct (IH out n bs Hn) as (_ & HB & _).
      apply (HB p Hp H). clear - Hm Hlen. divmod.
    + intros d Hd H Hm. destruct (Hgood _ _ H) as (p & Hp & ->).
      rewrite (decode_step _ _ _ _ _ p Hp eq_refl) in H by lia.
      change (8 <=? 6 + 6) with true in H. cbv iota in H.
      change (2 ^ 6) with 64 in H. change (6 + 6 - 8) with 4 in H.
      replace ((d + p * 64) / 256) with (p / 4) in H by divmod.
      destruct (IH (out ++ [to_u8 ((d + p * 64) mod 256)]) n bs Hn)
        as (_ & _ & HC & _).
      destruct (HC (p mod 4) (p / 4)) as (tail & Hbs & Henc);
        [divmod | divmod | exact H | clear - Hm Hlen; divmod |].
      exists (to_u8 ((d + p * 64) mod 256) :: tail).
      split; [rewrite Hbs, snoc_app; reflexivity|].
      rewrite encode_step_0, u8_to_u8.
      replace ((d + p * 64) mod 256 mod 256 mod 64) with d by divmod.
      replace ((d + p * 64) mod 256 mod 256 / 64) with (p mod 4) by divmod.
      rewrite Henc.
      replace (p mod 4 + 4 * (p / 4)) with p by divmod. reflexivity.
    + intros e h He Hh H Hm. destruct (Hgood _ _ H) as (p & Hp & ->).
      rewrite (decode_step _ _ _ _ _ p Hp eq_refl) in H by lia.
      change (8 <=? 4 + 6) with true in H. cbv iota in H.
      change (2 ^ 4) with 16 in H. change (4 + 6 - 8) with 2 in H.
      replace ((h + p * 16) / 256) with (p / 16) in H by divmod.
      destruct (IH (out ++ [to_u8 ((h + p * 16) mod 256)]) n bs Hn)
        as (_ & _ & _ & HD).
      destruct (HD (p mod 16) (p / 16)) as (tail & Hbs & Henc);
        [divmod | divmod | exact H | clear - Hm Hlen; divmod |].
      exists (to_u8 ((h + p * 16) mod 256) :: tail).
      split; [rewrite Hbs, snoc_app; reflexivity|].
      rewrite encode_step_2, u8_to_u8.
      replace ((e + (h + p * 16) mod 256 mod 256 * 4) mod 64)
        with (e + 4 * h) by divmod.
      replace ((e + (h + p * 16) mod 256 mod 256 * 4) / 64)
        with (p mod 16) by divmod.
      rewrite Henc.
      replace (p mod 16 + 16 * (p / 16)) with p by divmod. reflexivity.
    + intros e h He Hh H Hm. destruct (Hgood _ _ H) as (p & Hp & ->).
      rewrite (decode_step _ _ _ _ _ p Hp eq_refl) in H by lia.
      change (8 <=? 2 + 6) with true in H. cbv iota in H.
      change (2 ^ 2) with 4 in H. change (2 + 6 - 8) with 0 in H.
      replace ((h + p * 4) / 256) with 0 in H by divmod.
      destruct (IH (out ++ [to_u8 ((h + p * 4) mod 256)]) n bs Hn)
        as (HA & _).
      destruct HA as (tail & Hbs & Henc);
        [exact H | clear - Hm Hlen; divmod |].
      exists (to_u8 ((h + p * 4) mod 256) :: tail).
      split; [rewrite Hbs, snoc_app; reflexivity|].
      rewrite encode_step_4, u8_to_u8.
      replace ((e + (h + p * 4) mod 256 mod 256 * 16) mod 64)
        with (e + 16 * h) by divmod.
      replace ((e + (h + p * 4) mod 256 mod 256 * 16) / 64 mod 64)
        with p by divmod.
      replace ((e + (h + p * 4) mod 256 mod 256 * 16) / 64 / 64)
        with 0 by divmod.
      rewrite Henc. reflexivity.
Qed.

(** X16: decoding then encoding.  A text that [base64_decode] accepts and
    whose length is not 1 modulo 4 is the encoding of the bytes it decodes
    to; a text of length 1 modulo 4 can only be accepted with a last
    character that carries no bits, and is never an encoding. *)
Theorem base64_encode_decode (s bs : list byte) (n : Z) :
  base64_decode s = (n, bs) ->
  0 <= n ->
  (len s mod 4 <> 1 -> base64_encode bs = s)
  /\ (len s mod 4 = 1 -> base64_encode bs <> s).
Proof.
  intros H Hn. split.
  - intros Hm. destruct (decode_then_encode s [] n bs Hn) as (HA & _).
    destruct (HA H Hm) as (tail & -> & Henc). exact Henc.
  - intros Hm Henc.
    destruct (base64_decode_count s n bs H Hn) as [_ Hcnt].
    apply (f_equal len) in Henc. rewrite base64_encode_length in Henc.
    unfold BASE64_CHARS, DIV_ROUND_UP in Henc.
    pose proof (len_nonneg s). pose proof (len_nonneg bs).
    clear - Hm Hcnt Henc H0 H1. divmod.
Qed.
End Fscrypt.

(** * Worked examples *)

(** ** Base64 *)

Example base64_encode_Man : base64_encode (cstr "Man") = cstr "NFmb".
Proof. reflexivity. Qed.

Example encode_msb_first_Man : encode_msb_first (cstr "Man") = cstr "TWFu".
Proof. reflexivity. Qed.

Example base64_decode_bad_char : fst (base64_decode (cstr "NF=b")) = -2.
Proof. reflexivity. Qed.

Example base64_decode_stray_bits :
  fst (base64_decode (cstr "AQ")) = -1.
Proof. reflexivity. Qed.

(** C6, the claim as stated fails: for the single byte 0x01 the encoder
    gives [BA], the low six bits first, where a most-significant-bit-first
    reading of the same byte gives [AQ]. *)
Lemma base64_encode_not_msb_first :
  base64_encode [x01] = cstr "BA"
  /\ encode_msb_first [x01] = cstr "AQ"
  /\ base64_encode [x01] <> encode_msb_first [x01].
Proof.
  split; [reflexivity|]. split; [reflexivity|]. discriminate.
Qed.

(** ** Encrypted name sizes *)

(** C5, the claim as stated fails: with granularity 32 and the usual
    maximum of 255, a 250-byte name gets the size 255, which is not a
    multiple of 32; with granularity 4 and a maximum of 10, a 5-byte name
    gets the size 10, which is neither a multiple of 4 nor a whole cipher
    block. *)
Lemma encrypted_size_clamped :
  (fname_padding sample_info_pad32 = 32
   /\ fscrypt_fname_encrypted_size sample_info_pad32 250 255 = Some 255
   /\ 255 mod fname_padding sample_info_pad32 <> 0)
  /\ (fname_padding sample_info = 4
      /\ fscrypt_fname_encrypted_size sample_info 5 10 = Some 10
      /\ 10 mod fname_padding sample_info <> 0
      /\ 10 < FS_CRYPTO_BLOCK_SIZE).
Proof.
  split.
  - split; [reflexivity|]. split; [reflexivity | discriminate].
  - split; [reflexivity|]. split; [reflexivity|].
    split; [discriminate | reflexivity].
Qed.

(** Above [2^32 - 32] the 32-bit rounding wraps to 0. *)
Example encrypted_size_wraps :
  fscrypt_fname_encrypted_size sample_info 0xFFFFFFFC 0xFFFFFFFF
  = Some 0xFFFFFFFC
  /\ fscrypt_fname_encrypted_size sample_info 0xFFFFFFFD 0xFFFFFFFF = Some 0.
Proof. split; reflexivity. Qed.

Example encrypted_size_17_of_255 :
  fscrypt_fname_encrypted_size sample_info 17 255 = Some 20.
Proof. reflexivity. Qed.

Example encrypted_size_too_long :
  fscrypt_fname_encrypted_size sample_info 256 255 = None.
Proof. reflexivity. Qed.

(** ** Policies *)

Example sample_policy_supported :
  fscrypt_supported_policy sample_valid_enc_modes sample_policy sample_dir = true.
Proof. reflexivity. Qed.

(** C8, at [sample_policy]. *)
Lemma fscrypt_policy_context_roundtrip_sample :
  policy_wf sample_policy
  /\ fscrypt_supported_policy sample_valid_enc_modes sample_policy sample_dir
     = true
  /\ fscrypt_policy_from_context
       (fst (fscrypt_new_context_from_policy sample_random sample_policy))
       (snd (fscrypt_new_context_from_policy sample_random sample_policy))
     = Ok sample_policy.
Proof.
  split; [reflexivity|]. split; [reflexivity|].
  apply (fscrypt_policy_context_roundtrip sample_valid_enc_modes sample_random
           sample_policy sample_dir); reflexivity.
Defined.

(** C1, the claim as stated fails: [sample_dir] carries [sample_policy],
    and setting that very policy again returns 0, not [-EEXIST]. *)
Lemma set_same_policy_succeeds :
  fscrypt_get_policy sample_ops (f_inode sample_file) = Ok sample_policy
  /\ fscrypt_ioctl_set_policy sample_valid_enc_modes sample_ops sample_random
       sample_file (policy_bytes sample_policy)
     = (0, sample_dir)
  /\ fst (fscrypt_ioctl_set_policy sample_valid_enc_modes sample_ops
            sample_random sample_file (policy_bytes sample_policy))
     <> - EEXIST.
Proof.
  split; [reflexivity|]. split; [reflexivity|]. discriminate.
Qed.

(** C1 (amended), at [sample_file] and [sample_policy]. *)
Lemma fscrypt_ioctl_set_policy_existing_sample :
  fscrypt_ioctl_set_policy sample_valid_enc_modes sample_ops sample_random
    sample_file (policy_bytes sample_policy)
  = (0, f_inode sample_file)
  /\ fscrypt_ioctl_set_policy sample_valid_enc_modes sample_ops sample_random
       sample_file (policy_bytes other_policy)
     = (- EEXIST, f_inode sample_file).
Proof.
  pose proof (fscrypt_ioctl_set_policy_existing sample_valid_enc_modes
                sample_ops sample_random sample_file
                (policy_bytes sample_policy) sample_policy
                eq_refl eq_refl eq_refl eq_refl eq_refl) as [Hsame _].
  pose proof (fscrypt_ioctl_set_policy_existing sample_valid_enc_modes
                sample_ops sample_random sample_file
                (policy_bytes other_policy) sample_policy
                eq_refl eq_refl eq_refl eq_refl eq_refl) as [_ Hdiff].
  split.
  - apply Hsame. reflexivity.
  - apply Hdiff; [vm_compute; discriminate | reflexivity | discriminate].
Defined.

Example permitted_same_policy :
  fscrypt_has_permitted_context sample_ops no_key_info
    sample_dir_with_key (sample_child sample_policy) = 1.
Proof. reflexivity. Qed.

Example forbidden_other_policy :
  fscrypt_has_permitted_context sample_ops no_key_info
    sample_dir_with_key (sample_child other_policy) = 0.
Proof. reflexivity. Qed.

Example forbidden_when_info_fails :
  fscrypt_has_permitted_context sample_ops (fun i => (- ENOMEM, i))
    sample_dir_with_key (sample_child sample_policy) = 0.
Proof. reflexivity. Qed.

(** ** Names without the key *)

(** C3, at a 16-byte name and at a 200-byte name, with a digest that
    depends on the bytes it is given: the record of the long name ends with
    the digest of its last 51 bytes, 32 bytes [0xaa]. *)
Lemma fscrypt_fname_disk_to_usr_nokey_sample :
  (exists oname,
      fscrypt_fname_disk_to_usr true sample_cipher 0 sum_digest
        sample_dir 0xABCD1234 0 name16 = Ok oname
      /\ base64_decode oname
         = (24, u32_bytes 0xABCD1234 ++ u32_bytes 0 ++ name16))
  /\ (exists oname,
        fscrypt_fname_disk_to_usr true sample_cipher 0 sum_digest
          sample_dir 0xABCD1234 0 name200 = Ok oname
        /\ base64_decode oname
           = (189, u32_bytes 0xABCD1234 ++ u32_bytes 0 ++ firstn 149 name200
                   ++ repeat xaa 32)).
Proof.
  split.
  - destruct (fscrypt_fname_disk_to_usr_nokey true sample_cipher 0 sum_digest
                sample_dir 0xABCD1234 0 name16) as [Hshort _].
    + vm_compute. discriminate.
    + reflexivity.
    + destruct Hshort as (oname & H1 & H2); [vm_compute; discriminate|].
      exists oname. split; [exact H1|].
      rewrite H2. reflexivity.
  - destruct (fscrypt_fname_disk_to_usr_nokey true sample_cipher 0 sum_digest
                sample_dir 0xABCD1234 0 name200) as [_ Hlong].
    + vm_compute. discriminate.
    + reflexivity.
    + destruct (Hlong ltac:(reflexivity) (repeat xaa 32))
        as (oname & H1 & H2); [reflexivity | reflexivity | reflexivity |].
      exists oname. split; [exact H1|].
      rewrite H2. reflexivity.
Defined.

(** The example of the specification: hash pair [(0xABCD1234, 0)] and a
    200-byte name give a 189-byte record, the pair, the first 149 bytes and
    the digest of the other 51. *)
Example disk_to_usr_200 :
  exists oname,
    fscrypt_fname_disk_to_usr true sample_cipher 0 sample_digest
      sample_dir 0xABCD1234 0 name200 = Ok oname
    /\ len oname = 252
    /\ base64_decode oname
       = (189, u32_bytes 0xABCD1234 ++ u32_bytes 0 ++ firstn 149 name200
               ++ snd (sample_digest (skipn 149 name200)))
    /\ u32_of_bytes (u32_bytes 0xABCD1234) = 0xABCD1234.
Proof.
  eexists. split; [reflexivity|]. vm_compute. repeat split.
Qed.

(** C4, at the presented form of [name16] and at a create. *)
Lemma fscrypt_setup_filename_nokey_sample :
  fst (fscrypt_setup_filename sample_ops no_key_info sample_kmalloc true
         sample_cipher sample_dir (cstr "new-file") 0) = - ENOKEY
  /\ fst (fscrypt_setup_filename sample_ops no_key_info sample_kmalloc true
            sample_cipher sample_dir
            (base64_encode (u32_bytes 7 ++ u32_bytes 9 ++ name16)) 1) = 0
  /\ disk_name
       (snd (fscrypt_setup_filename sample_ops no_key_info sample_kmalloc true
               sample_cipher sample_dir
               (base64_encode (u32_bytes 7 ++ u32_bytes 9 ++ name16)) 1))
     = {| name := Some name16; str_len := 16 |}.
Proof.
  pose proof (fscrypt_setup_filename_nokey sample_ops no_key_info
                sample_kmalloc true sample_cipher sample_dir sample_dir
                (cstr "new-file") 0 eq_refl eq_refl eq_refl eq_refl)
    as [Hcreate _].
  pose proof (fscrypt_setup_filename_nokey sample_ops no_key_info
                sample_kmalloc true sample_cipher sample_dir sample_dir
                (base64_encode (u32_bytes 7 ++ u32_bytes 9 ++ name16)) 1
                eq_refl eq_refl eq_refl eq_refl)
    as [_ Hlookup].
  split; [apply Hcreate; reflexivity|].
  destruct (Hlookup ltac:(discriminate) eq_refl 24
                    (u32_bytes 7 ++ u32_bytes 9 ++ name16) eq_refl)
    as (_ & Hfull & _).
  destruct Hfull as (H0 & Hname & _); [vm_compute; split; discriminate|].
  split; [exact H0 | exact Hname].
Defined.

Example setup_filename_garbage :
  fst (fscrypt_setup_filename sample_ops no_key_info sample_kmalloc true
         sample_cipher sample_dir (cstr "not base64!") 1) = - ENOENT.
Proof. reflexivity. Qed.

Example setup_filename_digested :
  let presented :=
    base64_encode (u32_bytes 7 ++ u32_bytes 9 ++ firstn 149 name200
                   ++ repeat xd5 32) in
  fscrypt_setup_filename sample_ops no_key_info sample_kmalloc true
    sample_cipher sample_dir presented 1
  = (0, {| usr_fname := presented; disk_name := null_str;
           hash := 7; minor_hash := 9;
           crypto_buf :=
             {| name := Some (u32_bytes 7 ++ u32_bytes 9
                              ++ firstn 149 name200 ++ repeat xd5 32);
                str_len := 189 |};
           is_ciphertext_name := true |}).
Proof. vm_compute. reflexivity. Qed.

(** * Further worked examples *)

(** Closes a closed equation or comparison by evaluation. *)
Ltac by_eval :=
  first [ reflexivity
        | discriminate
        | vm_compute; first [reflexivity | discriminate]
        | vm_compute; split; first [reflexivity | discriminate] ].

(** A regular file is not a directory; and a buffer whose first byte is
    no known policy version is refused before the file is looked at. *)
Example ioctl_set_policy_regular_file :
  fscrypt_ioctl_set_policy sample_valid_enc_modes storing_ops sample_random
    plain_child_file (policy_bytes sample_policy)
  = (- ENOTDIR, plain_child)
  /\ fscrypt_ioctl_set_policy sample_valid_enc_modes storing_ops
       sample_random plain_child_file (x01 :: policy_bytes sample_policy)
     = (- EINVAL, plain_child).
Proof. split; reflexivity. Qed.

(** On a plain empty directory every check passes and the filesystem
    stores the context. *)
Example ioctl_set_policy_plain_dir :
  fscrypt_ioctl_set_policy sample_valid_enc_modes storing_ops sample_random
    plain_dir_file (policy_bytes sample_policy)
  = (0, encrypted_of plain_dir).
Proof. reflexivity. Qed.

(** X3, at [sample_dir], whose stored context is that of
    [sample_policy]. *)
Lemma fscrypt_get_policy_stored_context_sample :
  fscrypt_get_policy sample_ops sample_dir = Ok sample_policy
  /\ (sizeof_policy_v1 <= 12 ->
      fscrypt_ioctl_get_policy sample_ops sample_file 12
      = (0, policy_bytes sample_policy))
  /\ (12 < sizeof_policy_v1 ->
      fst (fscrypt_ioctl_get_policy sample_ops sample_file 12) = - EFAULT).
Proof.
  apply (fscrypt_get_policy_stored_context sample_ops sample_random
           sample_file sample_policy 12);
    by_eval.
Defined.

Example ioctl_get_policy_short_buffer :
  fscrypt_ioctl_get_policy sample_ops sample_file 5
  = (- EFAULT, firstn 5 (policy_bytes sample_policy)).
Proof. reflexivity. Qed.

(** X4, at [sample_dir], which carries [sample_policy]. *)
Lemma fscrypt_get_then_set_policy_sample :
  fscrypt_ioctl_get_policy sample_ops sample_file 12
  = (0, policy_bytes sample_policy)
  /\ fscrypt_ioctl_set_policy sample_valid_enc_modes sample_ops sample_random
       sample_file (snd (fscrypt_ioctl_get_policy sample_ops sample_file 12))
     = (0, sample_dir).
Proof.
  apply (fscrypt_get_then_set_policy sample_valid_enc_modes sample_ops
           sample_random sample_file sample_policy 12);
    by_eval.
Defined.

(** X5, at a filesystem that reports [-ERANGE]. *)
Lemma fscrypt_ioctl_set_policy_unreadable_sample :
  fscrypt_ioctl_set_policy sample_valid_enc_modes unreadable_ops sample_random
    sample_file (policy_bytes sample_policy)
  = (- EEXIST, sample_dir).
Proof.
  apply (fscrypt_ioctl_set_policy_unreadable sample_valid_enc_modes
           unreadable_ops sample_random sample_file
           (policy_bytes sample_policy) (- ERANGE) zero_context);
    try by_eval.
  left. reflexivity.
Defined.

(** A parent whose key is not loaded: nothing is stored in the child. *)
Example inherit_context_without_key :
  fscrypt_inherit_context sample_random no_key_info storing_set_context
    sample_dir plain_child true
  = (- ENOKEY, sample_dir, plain_child).
Proof. reflexivity. Qed.


(** The same where the child's encryption info cannot be resolved: the
    preloading call returns the error and the child is not permitted. *)
Example inherit_context_preload_fails :
  fscrypt_inherit_context sample_random dirs_only_info storing_set_context
    sample_dir_with_key plain_child true
  = (- ENOMEM, sample_dir_with_key, encrypted_of plain_child)
  /\ fscrypt_has_permitted_context sample_ops dirs_only_info
       sample_dir_with_key (encrypted_of plain_child) = 0.
Proof. split; reflexivity. Qed.


(** The sample block cipher undoes itself on buffers it accepts. *)
Lemma block_cipher_law (ci : fscrypt_info) (buf : list byte) :
  FS_CRYPTO_BLOCK_SIZE <= len buf ->
  exists out,
    block_cipher ci buf = (0, out)
    /\ block_cipher ci out = (0, buf)
    /\ List.length out = List.length buf.
Proof.
  intros H. unfold block_cipher at 1.
  destruct (len buf <? FS_CRYPTO_BLOCK_SIZE) eqn:E;
    [apply Z.ltb_lt in E; lia|].
  eexists. split; [reflexivity|]. split; [|apply length_map].
  unfold block_cipher, len. rewrite length_map. fold (len buf). rewrite E.
  f_equal. rewrite map_map. rewrite <- (map_id buf) at 2.
  apply map_ext. intros b. destruct b; reflexivity.
Qed.

(** X9, at the name [hello.txt], with a cipher that refuses buffers
    shorter than one block. *)
Lemma fscrypt_setup_then_disk_to_usr_sample :
  exists c,
    fscrypt_setup_filename sample_ops no_key_info sample_kmalloc true
      block_cipher sample_dir_with_key (cstr "hello.txt") 0
    = (0, {| usr_fname := cstr "hello.txt";
             disk_name := {| name := Some c; str_len := len c |};
             hash := 0; minor_hash := 0;
             crypto_buf := {| name := Some c; str_len := len c |};
             is_ciphertext_name := false |})
    /\ FS_CRYPTO_BLOCK_SIZE <= len c <= max_namelen sample_ops
    /\ len (cstr "hello.txt") <= len c
    /\ fscrypt_fname_disk_to_usr true block_cipher 0 sample_digest
         sample_dir_with_key 7 9 c
       = Ok (cstr "hello.txt").
Proof.
  apply (fscrypt_setup_then_disk_to_usr sample_ops no_key_info sample_kmalloc
           true block_cipher block_cipher 0 sample_digest
           sample_dir_with_key sample_dir_with_key sample_info
           (cstr "hello.txt") 0 7 9);
    try by_eval.
  - intros buf [Hb _]. apply (block_cipher_law sample_info buf Hb).
  - repeat constructor; discriminate.
Defined.

Example block_cipher_hello :
  fst (block_cipher sample_info (cstr "hello.txt")) = - EINVAL
  /\ fname_encrypt true block_cipher sample_info (cstr "hello.txt") 16
     = (0, map (fun b => to_u8 (Z.lxor (u8 b) 0x5A))
               (cstr "hello.txt" ++ repeat x00 7)).
Proof. split; reflexivity. Qed.

(** X10, at [name16]. *)
Lemma fscrypt_nokey_present_then_lookup_sample :
  exists presented fname,
    fscrypt_fname_disk_to_usr true sample_cipher 0 sample_digest
      sample_dir 0xABCD1234 5 name16 = Ok presented
    /\ fscrypt_setup_filename sample_ops no_key_info sample_kmalloc true
         sample_cipher sample_dir presented 1 = (0, fname)
    /\ disk_name fname = {| name := Some name16; str_len := len name16 |}
    /\ hash fname = (if 0xABCD1234 =? 0 then 0 else 0xABCD1234)
    /\ minor_hash fname = (if 0xABCD1234 =? 0 then 0 else 5)
    /\ is_ciphertext_name fname = true.
Proof.
  apply (fscrypt_nokey_present_then_lookup sample_ops no_key_info
           sample_kmalloc true sample_cipher sample_cipher 0 sample_digest
           sample_dir sample_dir 0xABCD1234 5 1 name16);
    by_eval.
Defined.

(** X11, at [name200]. *)
Lemma fscrypt_nokey_present_then_lookup_long_sample :
  exists presented fname,
    fscrypt_fname_disk_to_usr true sample_cipher 0 sample_digest
      sample_dir 0xABCD1234 5 name200 = Ok presented
    /\ len presented = BASE64_CHARS FSCRYPT_NOKEY_NAME_MAX
    /\ fscrypt_setup_filename sample_ops no_key_info sample_kmalloc true
         sample_cipher sample_dir presented 1 = (0, fname)
    /\ disk_name fname = null_str
    /\ hash fname = (if 0xABCD1234 =? 0 then 0 else 0xABCD1234)
    /\ minor_hash fname = (if 0xABCD1234 =? 0 then 0 else 5)
    /\ crypto_buf fname
       = {| name :=
              Some (u32_bytes (if 0xABCD1234 =? 0 then 0 else 0xABCD1234)
                    ++ u32_bytes (if 0xABCD1234 =? 0 then 0 else 5)
                    ++ firstn (Z.to_nat sizeof_nokey_bytes) name200
                    ++ repeat xd5 32);
            str_len := FSCRYPT_NOKEY_NAME_MAX |}.
Proof.
  apply (fscrypt_nokey_present_then_lookup_long sample_ops no_key_info
           sample_kmalloc true sample_cipher sample_cipher 0 sample_digest
           sample_dir sample_dir 0xABCD1234 5 1 name200 (repeat xd5 32));
    by_eval.
Defined.

(** X12, at [name200]. *)
Lemma fscrypt_fname_disk_to_usr_nokey_bound_sample :
  len (base64_encode
         (u32_bytes 7 ++ u32_bytes 9 ++ firstn 149 name200 ++ repeat xd5 32))
  <= BASE64_CHARS FSCRYPT_NOKEY_NAME_MAX
  /\ BASE64_CHARS FSCRYPT_NOKEY_NAME_MAX = 252.
Proof.
  apply (fscrypt_fname_disk_to_usr_nokey_bound true sample_cipher 0
           sample_digest sample_dir 7 9 name200);
    reflexivity.
Defined.

(** X13, at [name16] listed twice. *)
Lemma fscrypt_fname_disk_to_usr_nokey_injective_sample :
  name16 = cstr "0123456789abcdef".
Proof.
  apply (fscrypt_fname_disk_to_usr_nokey_injective true sample_cipher 0
           sample_digest sample_dir 7 9 7 9 name16 (cstr "0123456789abcdef")
           (base64_encode (u32_bytes 7 ++ u32_bytes 9 ++ name16)));
    by_eval.
Defined.

(** X14, at the entry [..] of an encrypted directory without key. *)
Lemma fscrypt_dot_dotdot_passthrough_sample :
  fscrypt_setup_filename sample_ops no_key_info sample_kmalloc true
    sample_cipher sample_dir (cstr "..") 0
  = (0, {| usr_fname := cstr "..";
           disk_name := {| name := Some (cstr ".."); str_len := 2 |};
           hash := 0; minor_hash := 0; crypto_buf := null_str;
           is_ciphertext_name := false |})
  /\ fscrypt_fname_disk_to_usr true sample_cipher 0 sample_digest
       sample_dir 7 9 (cstr "..") = Ok (cstr "..").
Proof.
  apply (fscrypt_dot_dotdot_passthrough sample_ops no_key_info sample_kmalloc
           true sample_cipher sample_cipher 0 sample_digest
           sample_dir sample_dir (cstr "..") 0 7 9).
  reflexivity.
Defined.


(** X18, at the presented form of [name16]: 32 characters that decode to
    24 bytes. *)
Lemma fscrypt_setup_filename_nokey_accepts_sample :
  Forall (fun c => In c lookup_table)
         (base64_encode (u32_bytes 7 ++ u32_bytes 9 ++ name16))
  /\ (12 <= len (base64_encode (u32_bytes 7 ++ u32_bytes 9 ++ name16)) <= 210
      \/ len (base64_encode (u32_bytes 7 ++ u32_bytes 9 ++ name16)) = 252)
  /\ sample_kmalloc FSCRYPT_NOKEY_NAME_MAX = true
  /\ str_len
       (crypto_buf
          (snd (fscrypt_setup_filename sample_ops no_key_info sample_kmalloc
                  true sample_cipher sample_dir
                  (base64_encode (u32_bytes 7 ++ u32_bytes 9 ++ name16)) 1)))
     = 6 * len (base64_encode (u32_bytes 7 ++ u32_bytes 9 ++ name16)) / 8.
Proof.
  apply (fscrypt_setup_filename_nokey_accepts sample_ops no_key_info
           sample_kmalloc true sample_cipher sample_dir sample_dir
           (base64_encode (u32_bytes 7 ++ u32_bytes 9 ++ name16)) 1);
    by_eval.
Defined.

(** A text with a character outside the table, after four good ones:
    three bytes were stored before it was met. *)
Example base64_decode_rejected_late :
  fst (base64_decode (cstr "abcd*")) = -2
  /\ len (snd (base64_decode (cstr "abcd*"))) = 3.
Proof. split; reflexivity. Qed.

(** X16, at the texts [NFmb] and [NFmbA], which both decode to [Man]. *)
Lemma base64_encode_decode_sample :
  (len (cstr "NFmb") mod 4 <> 1 -> base64_encode (cstr "Man") = cstr "NFmb")
  /\ (len (cstr "NFmb") mod 4 = 1 -> base64_encode (cstr "Man") <> cstr "NFmb").
Proof.
  apply (base64_encode_decode (cstr "NFmb") (cstr "Man") 3).
  - reflexivity.
  - lia.
Defined.

Example base64_decode_alias :
  base64_decode (cstr "NFmbA") = (3, cstr "Man")
  /\ base64_encode (cstr "Man") = cstr "NFmb".
Proof. split; reflexivity. Qed.
